(** * dagu, internal/runner/entry.go: the schedule-entry reader

    A shallow embedding of [Entry.Invoke], [newEntryReader],
    [entryReader.Read], [entryReader.initDags] and [entryReader.watchDags],
    and the properties of the live registry and of entry production that the
    specification states about them. *)

From Stdlib Require Import ZArith Lia Permutation.
From stdpp Require Import base gmap strings list fin_maps pretty.

(** ** Values shared with the Go runtime *)

(** [time.Time], as seconds since the Unix epoch (UTC). *)
Definition Time : Type := Z.

(** Go's [error]; the nil error is [None] of [option error]. *)
Definition error : Type := string.

(** A Go [(value, error)] pair of results. *)
Inductive result (A : Type) : Type :=
| Ok (a : A)
| Err (e : error).
Arguments Ok {A} a.
Arguments Err {A} e.

Definition is_Ok {A} (r : result A) : bool :=
  match r with Ok _ => true | Err _ => false end.

(** [strings.Join]. *)
Definition strings_Join (elems : list string) (sep : string) : string :=
  String.concat sep elems.

(** ** Types of the packages the file imports *)

Module cron.
(** The interface [cron.Schedule]: one method, [Next(time.Time) time.Time]. *)
Record Schedule : Type := { Next : Time -> Time }.
End cron.

Module dag.
(** [dag.Schedule]: the expression as written and its parsed form. *)
Record Schedule : Type := { Expression : string; Parsed : cron.Schedule }.

Module DAG.
(** [dag.DAG], the head of a definition: the fields this file reads. *)
Record t : Type := {
  Name : string;
  Schedule : list dag.Schedule;
  StopSchedule : list dag.Schedule;
  RestartSchedule : list dag.Schedule
}.
End DAG.
End dag.

Module admin.
(** [admin.Config]: [DAGs] is the directory of the definitions. *)
Record Config : Type := { DAGs : string }.
End admin.

Module fsnotify.
(** Modelled from the spec: [fsnotify.Op] is declared outside this file; the
    spec's change event has a kind among Created, Modified, Removed and
    Renamed, which the code names [Create], [Write], [Remove], [Rename]. *)
Inductive Op : Type := Create | Write | Remove | Rename.

#[global] Instance Op_eq_dec : EqDecision Op.
Proof. solve_decision. Defined.

Module Event.
Record t : Type := { Name : string; Op : fsnotify.Op }.
End Event.
End fsnotify.

(** ** Effects

    What a call does besides returning: the calls to collaborators, the log
    lines, and the operations on [dagsLock], in program order. *)

Inductive Effect : Type :=
| ELog (line : string)
| ELock
| EUnlock
| EReadDir (dir : string)
| ELoadHeadOnly (path : string)
| EIsSuspended (d : dag.DAG.t)
| EStart (job : string)
| EStop (job : string)
| ERestart (job : string)
| EGo (fn : string)
| EWatcherAdd (dir : string)
| EWatcherClose.

(** A method with receiver of type [S]: it reads and updates the receiver,
    returns a value and leaves a trace of effects. *)
Definition M (S A : Type) : Type := S -> A * S * list Effect.

#[global] Instance M_ret {S} : MRet (M S) :=
  fun A (a : A) s => (a, s, []).

#[global] Instance M_bind {S} : MBind (M S) :=
  fun A B (f : A -> M S B) (c : M S A) s =>
    let '(a, s1, t1) := c s in
    let '(b, s2, t2) := f a s1 in
    (b, s2, t1 ++ t2).

Definition emit {S} (e : Effect) : M S unit := fun s => (tt, s, [e]).
Definition get {S} : M S S := fun s => (s, s, []).
Definition modify {S} (f : S -> S) : M S unit := fun s => (tt, f s, []).

Definition value {S A} (r : A * S * list Effect) : A := r.1.1.
Definition receiver {S A} (r : A * S * list Effect) : S := r.1.2.
Definition trace {S A} (r : A * S * list Effect) : list Effect := r.2.

(** ** The package's own types *)

(** [type EntryType int], with the three constants numbered by [iota]. *)
Definition EntryType : Type := Z.
Definition EntryTypeStart : EntryType := 0%Z.
Definition EntryTypeStop : EntryType := 1%Z.
Definition EntryTypeRestart : EntryType := 2%Z.

Module Job.
(** The interface [Job] as [Entry.Invoke] uses it.  A method's error is what
    the call returns; that the call happened is recorded in the trace. *)
Class t (J : Type) : Type := {
  Start : J -> option error;
  Stop : J -> option error;
  Restart : J -> option error;
  String : J -> string
}.
End Job.

Module job.
(** The struct [job] that [Read] builds. *)
Record t : Type := { DAG : dag.DAG.t; Config : admin.Config; Next : Time }.
End job.

Module Entry.
(** [Entry]; a nil [Job] is [None]. *)
Record t (J : Type) : Type := {
  Next : Time;
  Job : option J;
  EntryType : Z
}.
Arguments Next {J} _.
Arguments Job {J} _.
Arguments EntryType {J} _.
End Entry.

Module entryReader.
(** [entryReader]: [dags] is the registry.  The suspend checker is a
    collaborator and [dagsLock] shows in the trace. *)
Record t : Type := {
  Admin : admin.Config;
  dags : gmap string dag.DAG.t
}.
End entryReader.

(** ** Collaborators

    What the file calls and does not define. *)
Record Env : Type := {
  (** [suspend.SuspendChecker.IsSuspended] *)
  IsSuspended : dag.DAG.t -> bool;
  (** [dag.Loader.LoadHeadOnly] *)
  LoadHeadOnly : string -> result dag.DAG.t;
  (** [os.ReadDir], reduced to the names of the entries *)
  ReadDir : string -> result (list string);
  (** [utils.MatchExtension] and [dag.EXTENSIONS] *)
  MatchExtension : string -> list string -> bool;
  EXTENSIONS : list string;
  (** [filepath.Join] of two elements, [filepath.Base] *)
  Join : string -> string -> string;
  Base : string -> string;
  (** [time.Time.Format] *)
  Format : Time -> string -> string
}.

(** ** Entry.Invoke *)

Definition Invoke {J} `{!Job.t J} (env : Env) : M (Entry.t J) (option error) :=
  e ← get;
  match Entry.Job e with
  | None => mret None
  | Some j =>
    if (Entry.EntryType e =? EntryTypeStart)%Z then
      emit (ELog ("[" +:+ Format env (Entry.Next e) "2006-01-02 15:04:05"
                      +:+ "] start " +:+ Job.String j));;
      emit (EStart (Job.String j));;
      mret (Job.Start j)
    else if (Entry.EntryType e =? EntryTypeStop)%Z then
      emit (ELog ("[" +:+ Format env (Entry.Next e) "2006-01-02 15:04:05"
                      +:+ "] stop " +:+ Job.String j));;
      emit (EStop (Job.String j));;
      mret (Job.Stop j)
    else if (Entry.EntryType e =? EntryTypeRestart)%Z then
      emit (ELog ("[" +:+ Format env (Entry.Next e) "2006-01-02 15:04:05"
                      +:+ "] restart " +:+ Job.String j));;
      emit (ERestart (Job.String j));;
      mret (Job.Restart j)
    else mret None
  end.

(** ** entryReader.Read *)

Definition setDag (name : string) (d : dag.DAG.t) (er : entryReader.t)
  : entryReader.t :=
  {| entryReader.Admin := entryReader.Admin er;
     entryReader.dags := <[name := d]> (entryReader.dags er) |}.

Definition deleteDag (name : string) (er : entryReader.t) : entryReader.t :=
  {| entryReader.Admin := entryReader.Admin er;
     entryReader.dags := delete name (entryReader.dags er) |}.

(** The closure [f] of [Read]: it appends to the local [entries], which is
    passed in and handed back here. *)
Definition Read_f (cfg : admin.Config) (now : Time) (d : dag.DAG.t)
    (s : list dag.Schedule) (e : EntryType)
    (entries : list (Entry.t job.t)) : list (Entry.t job.t) :=
  fold_left
    (fun entries ss =>
       let next := cron.Next (dag.Parsed ss) now in
       entries ++ [ {| Entry.Next := cron.Next (dag.Parsed ss) now;
                       Entry.Job := Some {| job.DAG := d;
                                            job.Config := cfg;
                                            job.Next := next |};
                       Entry.EntryType := e |} ])
    s entries.

(** The loop [for _, d := range er.dags], over the definitions in the order
    the range visits them. *)
Fixpoint Read_range (env : Env) (now : Time) (ds : list dag.DAG.t)
    (entries : list (Entry.t job.t))
  : M entryReader.t (list (Entry.t job.t)) :=
  match ds with
  | [] => mret entries
  | d :: ds =>
    emit (EIsSuspended d);;
    if IsSuspended env d then Read_range env now ds entries
    else
      er ← get;
      let cfg := entryReader.Admin er in
      let entries := Read_f cfg now d (dag.DAG.Schedule d) EntryTypeStart entries in
      let entries := Read_f cfg now d (dag.DAG.StopSchedule d) EntryTypeStop entries in
      let entries := Read_f cfg now d (dag.DAG.RestartSchedule d) EntryTypeRestart entries in
      Read_range env now ds entries
  end.

(** Go leaves the order in which [range] visits a map open: [order] is the
    order of this call, some enumeration of the registry. *)
Definition rangeOrder (er : entryReader.t) (order : list (string * dag.DAG.t))
  : Prop :=
  order ≡ₚ map_to_list (entryReader.dags er).

Definition Read (env : Env) (now : Time) (order : list (string * dag.DAG.t))
  : M entryReader.t (list (Entry.t job.t) * option error) :=
  emit ELock;;
  entries ← Read_range env now (order.*2) [];
  emit EUnlock;;   (* deferred *)
  mret (entries, None).

(** ** entryReader.initDags *)

Fixpoint initDags_range (env : Env) (fis : list string) (fileNames : list string)
  : M entryReader.t (list string) :=
  match fis with
  | [] => mret fileNames
  | fi :: fis =>
    if MatchExtension env fi (EXTENSIONS env) then
      er ← get;
      let path := Join env (admin.DAGs (entryReader.Admin er)) fi in
      emit (ELoadHeadOnly path);;
      match LoadHeadOnly env path with
      | Err err =>
        emit (ELog ("init dags failed to read dag config: " +:+ err));;
        initDags_range env fis fileNames
      | Ok d =>
        modify (setDag fi d);;
        initDags_range env fis (fileNames ++ [fi])
      end
    else initDags_range env fis fileNames
  end.

Definition initDags (env : Env) : M entryReader.t (option error) :=
  emit ELock;;
  er ← get;
  emit (EReadDir (admin.DAGs (entryReader.Admin er)));;
  match ReadDir env (admin.DAGs (entryReader.Admin er)) with
  | Err err =>
    emit EUnlock;;   (* deferred *)
    mret (Some err)
  | Ok fis =>
    fileNames ← initDags_range env fis [];
    emit (ELog ("init scheduler dags: " +:+ strings_Join fileNames ","));;
    emit EUnlock;;   (* deferred *)
    mret None
  end.

(** ** newEntryReader *)

(** The result is the reader, as in the Go signature, with the trace of the
    construction; [EGo] is the statement [go er.watchDags()]. *)
Definition newEntryReader (env : Env) (cfg : admin.Config)
  : entryReader.t * list Effect :=
  let er := {| entryReader.Admin := cfg; entryReader.dags := ∅ |} in
  let r :=
    (err ← initDags env;
     match err with
     | Some err => emit (ELog ("failed to init entry dags " +:+ err))
     | None => mret tt
     end;;
     emit (EGo "watchDags")) er in
  (receiver r, trace r).

(** ** entryReader.watchDags *)

(** What one [select] of the loop receives from the watcher's two channels. *)
Inductive Recv : Type :=
| RecvEvent (event : fsnotify.Event.t)
| RecvEventsClosed
| RecvError (err : error)
| RecvErrorsClosed.

(** How a run of [watchDags] ends: it returns, [log.Fatal] ends the process,
    or the loop waits in [select] for a message that has not come yet. *)
Inductive Exit : Type :=
| Returned
| Fatal (msg : string)
| Waiting.

Definition isReload (op : fsnotify.Op) : bool :=
  bool_decide (op = fsnotify.Create) || bool_decide (op = fsnotify.Write).

Definition isRemoval (op : fsnotify.Op) : bool :=
  bool_decide (op = fsnotify.Rename) || bool_decide (op = fsnotify.Remove).

(** The block between [er.dagsLock.Lock()] and [er.dagsLock.Unlock()]: one
    event applied to the registry. *)
Definition applyEvent (env : Env) (event : fsnotify.Event.t)
  : M entryReader.t unit :=
  let name := fsnotify.Event.Name event in
  emit ELock;;
  (if isReload (fsnotify.Event.Op event) then
     er ← get;
     let path := Join env (admin.DAGs (entryReader.Admin er)) (Base env name) in
     emit (ELoadHeadOnly path);;
     match LoadHeadOnly env path with
     | Err err => emit (ELog ("failed to read dag config: " +:+ err))
     | Ok d =>
       modify (setDag (Base env name) d);;
       emit (ELog ("reload dag entry " +:+ name))
     end
   else mret tt);;
  (if isRemoval (fsnotify.Event.Op event) then
     modify (deleteDag (Base env name));;
     emit (ELog ("remove dag entry " +:+ name))
   else mret tt);;
  emit EUnlock.

(** The loop [for { select { ... } }] over what the channels deliver. *)
Fixpoint watchDags_loop (env : Env) (msgs : list Recv)
  : M entryReader.t Exit :=
  match msgs with
  | [] => mret Waiting
  | RecvEventsClosed :: _ => mret Returned
  | RecvErrorsClosed :: _ => mret Returned
  | RecvEvent event :: msgs =>
    if negb (MatchExtension env (fsnotify.Event.Name event) (EXTENSIONS env))
    then watchDags_loop env msgs
    else applyEvent env event;; watchDags_loop env msgs
  | RecvError err :: msgs =>
    emit (ELog ("watch entry dags error: " +:+ err));;
    watchDags_loop env msgs
  end.

(** [watcher] is what [filenotify.New(time.Minute)] returns: an error, or a
    watcher, given by the messages its channels will deliver. *)
Definition watchDags (env : Env) (watcher : result (list Recv))
  : M entryReader.t Exit :=
  match watcher with
  | Err err => emit (ELog err);; mret (Fatal err)
  | Ok msgs =>
    er ← get;
    emit (EWatcherAdd (admin.DAGs (entryReader.Admin er)));;
    exit ← watchDags_loop env msgs;
    match exit with
    | Returned => emit EWatcherClose;; mret Returned   (* deferred *)
    | _ => mret exit
    end
  end.

(** ** Entry production as the specification words it *)

(** The Action of one schedule expression [expr] of workflow [d]: kind
    [kind], stamped with the expression's next occurrence after [now]. *)
Definition action (cfg : admin.Config) (now : Time) (d : dag.DAG.t)
    (kind : EntryType) (expr : dag.Schedule) : Entry.t job.t :=
  let next := cron.Next (dag.Parsed expr) now in
  {| Entry.Next := next;
     Entry.Job := Some {| job.DAG := d; job.Config := cfg; job.Next := next |};
     Entry.EntryType := kind |}.

(** One Action per expression of each of the three groups. *)
Definition actionsOf (cfg : admin.Config) (now : Time) (d : dag.DAG.t)
  : list (Entry.t job.t) :=
  (action cfg now d EntryTypeStart <$> dag.DAG.Schedule d)
  ++ (action cfg now d EntryTypeStop <$> dag.DAG.StopSchedule d)
  ++ (action cfg now d EntryTypeRestart <$> dag.DAG.RestartSchedule d).

(** [produce]: nothing for a suspended workflow, [actionsOf] for the others. *)
Definition produce (env : Env) (cfg : admin.Config) (now : Time)
    (snapshot : list (string * dag.DAG.t)) : list (Entry.t job.t) :=
  flat_map
    (fun kd => if IsSuspended env kd.2 then [] else actionsOf cfg now kd.2)
    snapshot.

(** ** The scope of the registry lock, read off a trace *)

(** Whether [dagsLock] is held after the effects [t], when it was [held]
    before them. *)
Fixpoint lockHeld (held : bool) (t : list Effect) : bool :=
  match t with
  | [] => held
  | ELock :: t => lockHeld true t
  | EUnlock :: t => lockHeld false t
  | _ :: t => lockHeld held t
  end.

Definition isLoad (e : Effect) : bool :=
  match e with ELoadHeadOnly _ => true | _ => false end.

Definition isSuspendCheck (e : Effect) : bool :=
  match e with EIsSuspended _ => true | _ => false end.

(** Every effect of the trace that [sel] selects happens with the lock in
    state [held]. *)
Definition lockStateAt (sel : Effect -> bool) (held : bool) (t : list Effect)
  : Prop :=
  forall pre e post,
    t = pre ++ e :: post -> sel e = true -> lockHeld false pre = held.

Definition outsideLock (sel : Effect -> bool) (t : list Effect) : Prop :=
  lockStateAt sel false t.

Definition underLock (sel : Effect -> bool) (t : list Effect) : Prop :=
  lockStateAt sel true t.

(** The same, as a check along the trace: [held] is the state of the lock
    before [t]. *)
Fixpoint lockStateFrom (sel : Effect -> bool) (expected held : bool)
    (t : list Effect) : bool :=
  match t with
  | [] => true
  | e :: t =>
    (if sel e then Bool.eqb held expected else true)
    && lockStateFrom sel expected (lockHeld held [e]) t
  end.

(** ** Schedule expressions *)

Module schedule.







End schedule.

(** ** The debounced change watcher *)

Module filenotify.

(** The pending timer of a path: the last kind seen and the deadline. *)
Abbreviation DebounceState := (gmap string (fsnotify.Op * Time)).

Definition isDue (now : Time) (timer : string * (fsnotify.Op * Time)) : Prop :=
  (timer.2.2 <= now)%Z.

#[global] Instance isDue_dec now timer : Decision (isDue now timer).
Proof. unfold isDue. apply _. Defined.






End filenotify.

(** ** Statements about the scan and the construction *)

(** The scan keeps the entry [fi] of the listing: its name carries a
    recognized extension and the loader accepts the file. *)
Definition accepted (env : Env) (dir fi : string) : bool :=
  MatchExtension env fi (EXTENSIONS env)
  && is_Ok (LoadHeadOnly env (Join env dir fi)).

(** The loader rejects the entry [fi] of the listing. *)
Definition rejected (env : Env) (dir fi : string) : bool :=
  negb (is_Ok (LoadHeadOnly env (Join env dir fi))).

(** The reader [newEntryReader] starts from. *)
Definition emptyRegistry (cfg : admin.Config) : entryReader.t :=
  {| entryReader.Admin := cfg; entryReader.dags := ∅ |}.



(** ** Reading traces and messages *)

Definition isLog (e : Effect) : bool :=
  match e with ELog _ => true | _ => false end.

Definition isJobCall (e : Effect) : bool :=
  match e with EStart _ | EStop _ | ERestart _ => true | _ => false end.

(** The message says that one of the watcher's channels is closed. *)
Definition isClose (msg : Recv) : bool :=
  match msg with RecvEventsClosed | RecvErrorsClosed => true | _ => false end.

(** [utils.MatchExtension(name, dag.EXTENSIONS)] *)
Definition recognized (env : Env) (name : string) : bool :=
  MatchExtension env name (EXTENSIONS env).

Definition isReadDir (e : Effect) : bool :=
  match e with EReadDir _ => true | _ => false end.

(** The number of entries [Read] makes for a definition that is not
    suspended. *)
Definition scheduleCount (d : dag.DAG.t) : nat :=
  length (dag.DAG.Schedule d) + length (dag.DAG.StopSchedule d)
  + length (dag.DAG.RestartSchedule d).

(** The heads the loader returns for the listed names with a recognized
    extension, each with its name. *)
Definition loadedHeads (env : Env) (dir : string) (fis : list string)
  : list (string * dag.DAG.t) :=
  omap
    (fun fi =>
       if recognized env fi then
         match LoadHeadOnly env (Join env dir fi) with
         | Ok d => Some (fi, d)
         | Err _ => None
         end
       else None)
    fis.

(** ** A directory and its collaborators, for the examples *)

Module Example.
Definition hasSuffix (s suffix : string) : bool :=
  String.prefix (String.rev suffix) (String.rev s).

(** The last element of a slash-separated path. *)
Fixpoint lastElement (acc s : string) : string :=
  match s with
  | EmptyString => acc
  | String c s =>
    if Ascii.eqb c (Ascii.ascii_of_nat 47) then lastElement "" s
    else lastElement (acc +:+ String c "") s
  end.

Definition cfg : admin.Config := {| admin.DAGs := "/dags" |}.

Definition everyMinute : dag.Schedule :=
  {| dag.Expression := "* * * * *";
     dag.Parsed := {| cron.Next := fun now => ((now / 60 + 1) * 60)%Z |} |}.

Definition hourly : dag.Schedule :=
  {| dag.Expression := "0 * * * *";
     dag.Parsed := {| cron.Next := fun now => ((now / 3600 + 1) * 3600)%Z |} |}.

Definition dagA : dag.DAG.t :=
  {| dag.DAG.Name := "a";
     dag.DAG.Schedule := [everyMinute];
     dag.DAG.StopSchedule := [hourly];
     dag.DAG.RestartSchedule := [] |}.

Definition dagPaused : dag.DAG.t :=
  {| dag.DAG.Name := "paused";
     dag.DAG.Schedule := [everyMinute; hourly];
     dag.DAG.StopSchedule := [];
     dag.DAG.RestartSchedule := [hourly] |}.

(** The directory /dags holds a.yaml and paused.yaml, which load, and
    b.yaml, which is malformed; the workflow "paused" is suspended. *)
Definition env : Env :=
  {| IsSuspended := fun d => String.eqb (dag.DAG.Name d) "paused";
     LoadHeadOnly := fun path =>
       if String.eqb path "/dags/a.yaml" then Ok dagA
       else if String.eqb path "/dags/paused.yaml" then Ok dagPaused
       else Err ("cannot load " +:+ path);
     ReadDir := fun dir =>
       if String.eqb dir "/dags" then Ok ["a.yaml"; "b.yaml"; "paused.yaml"]
       else Err ("open " +:+ dir +:+ ": no such file or directory");
     MatchExtension := fun name exts => existsb (hasSuffix name) exts;
     EXTENSIONS := [".yaml"; ".yml"];
     Join := fun dir name => dir +:+ "/" +:+ name;
     Base := lastElement "";
     Format := fun t layout => pretty t |}.


Definition reader : entryReader.t :=
  {| entryReader.Admin := cfg;
     entryReader.dags := <["a.yaml" := dagA]> (<["paused.yaml" := dagPaused]> ∅) |}.

Definition emptyReader : entryReader.t :=
  {| entryReader.Admin := cfg; entryReader.dags := ∅ |}.

(** A job whose methods fail each with its own error. *)
#[global] Instance failingJob : Job.t string :=
  {| Job.Start := fun j => Some ("start failed: " +:+ j);
     Job.Stop := fun j => Some ("stop failed: " +:+ j);
     Job.Restart := fun j => None;
     Job.String := fun j => j |}.

Definition created (name : string) : fsnotify.Event.t :=
  {| fsnotify.Event.Name := name; fsnotify.Event.Op := fsnotify.Create |}.

Definition removed (name : string) : fsnotify.Event.t :=
  {| fsnotify.Event.Name := name; fsnotify.Event.Op := fsnotify.Remove |}.

(** A registry with an entry for a file the directory no longer lists. *)
Definition staleReader : entryReader.t :=
  {| entryReader.Admin := cfg;
     entryReader.dags := <["old.yaml" := dagA]> ∅ |}.

(** The jobs of [Read]: every method succeeds; the job prints as the name
    of its definition. *)
#[global] Instance namedJob : Job.t job.t :=
  {| Job.Start := fun j => None;
     Job.Stop := fun j => None;
     Job.Restart := fun j => None;
     Job.String := fun j => dag.DAG.Name (job.DAG j) |}.
End Example.

(** * Properties *)

(** ** Running the methods *)

Lemma bind_run {S A B} (c : M S A) (f : A -> M S B) (s : S) :
  (c ≫= f) s =
  let '(a, s1, t1) := c s in let '(b, s2, t2) := f a s1 in (b, s2, t1 ++ t2).
Proof. reflexivity. Qed.

Ltac run :=
  repeat (rewrite bind_run; cbn [emit get modify mret M_ret]);
  cbn [value receiver trace fst snd app].

(** ** Entry.Invoke *)

(** C7: [Invoke] on an Entry without a Job returns the nil error and calls
    nothing; with a Job [j] it logs, calls the one method of [j] that matches
    the Entry's kind, and returns the error of that call as it is.  A kind
    that is none of the three calls nothing and returns the nil error. *)
Theorem Invoke_dispatches_on_kind {J} `{!Job.t J} (env : Env) (e : Entry.t J) :
  match Entry.Job e with
  | None => Invoke env e = (None, e, [])
  | Some j =>
    let stamp := Format env (Entry.Next e) "2006-01-02 15:04:05" in
    (Entry.EntryType e = EntryTypeStart ->
       Invoke env e =
       (Job.Start j, e,
        [ELog ("[" +:+ stamp +:+ "] start " +:+ Job.String j);
         EStart (Job.String j)]))
    /\ (Entry.EntryType e = EntryTypeStop ->
       Invoke env e =
       (Job.Stop j, e,
        [ELog ("[" +:+ stamp +:+ "] stop " +:+ Job.String j);
         EStop (Job.String j)]))
    /\ (Entry.EntryType e = EntryTypeRestart ->
       Invoke env e =
       (Job.Restart j, e,
        [ELog ("[" +:+ stamp +:+ "] restart " +:+ Job.String j);
         ERestart (Job.String j)]))
    /\ (Entry.EntryType e <> EntryTypeStart ->
        Entry.EntryType e <> EntryTypeStop ->
        Entry.EntryType e <> EntryTypeRestart ->
        Invoke env e = (None, e, []))
  end.
Proof.
  unfold Invoke. rewrite bind_run. cbn [get].
  destruct (Entry.Job e) as [j|]; [|reflexivity].
  cbn zeta. repeat split.
  - intros ->. reflexivity.
  - intros ->. reflexivity.
  - intros ->. reflexivity.
  - intros H0 H1 H2.
    destruct (Z.eqb_spec (Entry.EntryType e) EntryTypeStart); [done|].
    destruct (Z.eqb_spec (Entry.EntryType e) EntryTypeStop); [done|].
    destruct (Z.eqb_spec (Entry.EntryType e) EntryTypeRestart); done.
Qed.

(** ** entryReader.Read *)

Lemma Read_f_appends cfg now d s e entries :
  Read_f cfg now d s e entries = entries ++ (action cfg now d e <$> s).
Proof.
  unfold Read_f. revert entries.
  induction s as [|ss s IH]; intros entries; cbn.
  - by rewrite app_nil_r.
  - rewrite IH, <- app_assoc. reflexivity.
Qed.

Lemma Read_range_run env now ds entries er :
  Read_range env now ds entries er =
  (entries ++ flat_map
     (fun d => if IsSuspended env d then []
               else actionsOf (entryReader.Admin er) now d) ds,
   er, EIsSuspended <$> ds).
Proof.
  revert entries. induction ds as [|d ds IH]; intros entries; cbn.
  - by rewrite app_nil_r.
  - run. destruct (IsSuspended env d).
    + rewrite IH. reflexivity.
    + run. rewrite IH, !Read_f_appends. unfold actionsOf.
      rewrite <- !app_assoc. reflexivity.
Qed.

Lemma produce_flat_map env cfg now snapshot :
  produce env cfg now snapshot =
  flat_map (fun d => if IsSuspended env d then [] else actionsOf cfg now d)
           (snapshot.*2).
Proof.
  unfold produce. induction snapshot as [|kd l IH]; cbn; [done|].
  by rewrite IH.
Qed.

Lemma Read_run env now order er :
  Read env now order er =
  ((produce env (entryReader.Admin er) now order, None), er,
   ELock :: (EIsSuspended <$> order.*2) ++ [EUnlock]).
Proof.
  unfold Read. run. rewrite Read_range_run. run.
  rewrite produce_flat_map. reflexivity.
Qed.

Lemma produce_Permutation env cfg now l1 l2 :
  l1 ≡ₚ l2 -> produce env cfg now l1 ≡ₚ produce env cfg now l2.
Proof. intros Hp. unfold produce. by apply Permutation_flat_map. Qed.

Lemma elem_of_actionsOf cfg now d e :
  e ∈ actionsOf cfg now d ->
  exists kind expr, e = action cfg now d kind expr.
Proof.
  unfold actionsOf. rewrite !elem_of_app, !list_elem_of_fmap.
  intros [(expr & -> & _)|[(expr & -> & _)|(expr & -> & _)]]; eauto.
Qed.

Lemma elem_of_produce env cfg now snapshot e :
  e ∈ produce env cfg now snapshot ->
  exists k d, (k, d) ∈ snapshot /\ IsSuspended env d = false
              /\ e ∈ actionsOf cfg now d.
Proof.
  unfold produce. rewrite list_elem_of_In, in_flat_map.
  intros ([k d] & Hin & He). cbn in He.
  destruct (IsSuspended env d) eqn:Hs; [by destruct He|].
  exists k, d. by rewrite !list_elem_of_In.
Qed.

(** C1: for every registry and instant, whatever order the range visits the
    registry in, [Read] returns the Actions of [produce]: none for a workflow
    whose suspension predicate is true, and for the others one Action per
    schedule expression of the three groups, of the group's kind and stamped
    with the expression's next occurrence after [now]. *)
Theorem Read_emits_one_action_per_schedule env now order er :
  rangeOrder er order ->
  let entries := (value (Read env now order er)).1 in
  let cfg := entryReader.Admin er in
  entries = produce env cfg now order
  /\ entries ≡ₚ produce env cfg now (map_to_list (entryReader.dags er))
  /\ (forall e j, e ∈ entries -> Entry.Job e = Some j ->
        IsSuspended env (job.DAG j) = false)
  /\ (forall k d, entryReader.dags er !! k = Some d ->
        IsSuspended env d = false ->
        (action cfg now d EntryTypeStart <$> dag.DAG.Schedule d)
        ++ (action cfg now d EntryTypeStop <$> dag.DAG.StopSchedule d)
        ++ (action cfg now d EntryTypeRestart <$> dag.DAG.RestartSchedule d)
        ⊆+ entries)
  /\ receiver (Read env now order er) = er.
Proof.
  intros Horder. rewrite Read_run. cbn [value receiver fst snd].
  split; [reflexivity|]. split; [by apply produce_Permutation|].
  split; [|split; [|reflexivity]].
  - intros e j He Hj.
    apply elem_of_produce in He as (k & d & _ & Hs & He).
    apply elem_of_actionsOf in He as (kind & expr & ->).
    cbn in Hj. by simplify_eq.
  - intros k d Hk Hs.
    assert ((k, d) ∈ order) as Hin.
    { rewrite Horder. by apply elem_of_map_to_list. }
    apply elem_of_Permutation in Hin as [rest Hrest].
    rewrite (produce_Permutation _ _ _ _ _ Hrest).
    unfold produce at 1. cbn [flat_map snd]. rewrite Hs.
    apply submseteq_inserts_r. reflexivity.
Qed.

(** C10: [Read] returns the nil error, for every registry and instant. *)
Theorem Read_returns_nil_error env now order er :
  (value (Read env now order er)).2 = None.
Proof. rewrite Read_run. reflexivity. Qed.

(** ** entryReader.initDags *)

Lemma value_bind {S A B} (c : M S A) (f : A -> M S B) (s : S) :
  value ((c ≫= f) s) = value (f (value (c s)) (receiver (c s))).
Proof.
  rewrite bind_run. destruct (c s) as [[a s1] t1]. cbn.
  by destruct (f a s1) as [[b s2] t2].
Qed.

Lemma receiver_bind {S A B} (c : M S A) (f : A -> M S B) (s : S) :
  receiver ((c ≫= f) s) = receiver (f (value (c s)) (receiver (c s))).
Proof.
  rewrite bind_run. destruct (c s) as [[a s1] t1]. cbn.
  by destruct (f a s1) as [[b s2] t2].
Qed.

Lemma trace_bind {S A B} (c : M S A) (f : A -> M S B) (s : S) :
  trace ((c ≫= f) s) = trace (c s) ++ trace (f (value (c s)) (receiver (c s))).
Proof.
  rewrite bind_run. destruct (c s) as [[a s1] t1]. cbn.
  by destruct (f a s1) as [[b s2] t2].
Qed.

Ltac project :=
  repeat (rewrite ?value_bind, ?receiver_bind, ?trace_bind;
          cbn [value receiver trace emit get modify mret M_ret fst snd app]).

Lemma initDags_range_Admin env fis names er :
  entryReader.Admin (receiver (initDags_range env fis names er))
  = entryReader.Admin er.
Proof.
  revert names er. induction fis as [|fi fis IH]; intros names er; cbn.
  - reflexivity.
  - destruct (MatchExtension env fi (EXTENSIONS env)); [|apply IH].
    project.
    destruct (LoadHeadOnly env _); project; rewrite IH; reflexivity.
Qed.

Lemma initDags_range_lookup env fis names er name :
  entryReader.dags (receiver (initDags_range env fis names er)) !! name =
  if bool_decide (name ∈ fis)
     && accepted env (admin.DAGs (entryReader.Admin er)) name
  then match LoadHeadOnly env
               (Join env (admin.DAGs (entryReader.Admin er)) name) with
       | Ok d => Some d
       | Err _ => None
       end
  else entryReader.dags er !! name.
Proof.
  revert names er. induction fis as [|fi fis IH]; intros names er.
  - reflexivity.
  - cbn [initDags_range].
    destruct (decide (name = fi)) as [->|Hne].
    + rewrite (bool_decide_eq_true_2 (fi ∈ fi :: fis)) by left.
      unfold accepted at 1.
      destruct (MatchExtension env fi (EXTENSIONS env)) eqn:Hm; cbn [andb].
      * project.
        destruct (LoadHeadOnly env _) as [d|err] eqn:Hl; project; rewrite IH.
        -- cbn [setDag entryReader.Admin entryReader.dags].
           unfold accepted. rewrite Hm, Hl. cbn [is_Ok andb].
           rewrite lookup_insert_eq. by destruct (bool_decide _).
        -- unfold accepted. rewrite Hm, Hl. cbn [is_Ok].
           by rewrite andb_false_r.
      * rewrite IH. unfold accepted. rewrite Hm. cbn [andb].
        by rewrite andb_false_r.
    + assert (bool_decide (name ∈ fi :: fis) = bool_decide (name ∈ fis)) as ->.
      { apply bool_decide_ext. rewrite elem_of_cons.
        split; [intros [?|?]; done|by right]. }
      destruct (MatchExtension env fi (EXTENSIONS env)) eqn:Hm; [|apply IH].
      project.
      destruct (LoadHeadOnly env _) as [d|err] eqn:Hl; project; rewrite IH.
      * cbn [setDag entryReader.Admin entryReader.dags].
        by rewrite lookup_insert_ne.
      * reflexivity.
Qed.

Lemma initDags_range_dom env fis names er :
  dom (entryReader.dags (receiver (initDags_range env fis names er))) =
  dom (entryReader.dags er)
  ∪ list_to_set
      (filter (fun fi => accepted env (admin.DAGs (entryReader.Admin er)) fi = true)
              fis).
Proof.
  apply set_eq. intros name.
  rewrite elem_of_union, elem_of_list_to_set, list_elem_of_filter, !elem_of_dom.
  rewrite initDags_range_lookup.
  destruct (bool_decide_reflect (name ∈ fis)) as [Hin|Hin]; cbn [andb].
  - destruct (accepted env _ name) eqn:Ha.
    + unfold accepted in Ha. apply andb_prop in Ha as [_ Ha].
      destruct (LoadHeadOnly env _); [|done]. split; [|by eauto].
      intros _. by right.
    + split; [by left|]. intros [?|[? _]]; done.
  - split; [by left|]. intros [?|[_ ?]]; done.
Qed.

Lemma initDags_run env er fis :
  ReadDir env (admin.DAGs (entryReader.Admin er)) = Ok fis ->
  value (initDags env er) = None
  /\ receiver (initDags env er) = receiver (initDags_range env fis [] er).
Proof.
  intros Hdir. unfold initDags. project. rewrite Hdir. project. done.
Qed.

Lemma filter_ext_elem_of {A} (P1 P2 : A -> Prop)
    `{!forall x, Decision (P1 x)} `{!forall x, Decision (P2 x)} (l : list A) :
  (forall x, x ∈ l -> P1 x <-> P2 x) -> filter P1 l = filter P2 l.
Proof.
  induction l as [|a l IH]; intros Hiff; [done|].
  rewrite !filter_cons.
  rewrite IH by (intros x Hx; apply Hiff; by right).
  pose proof (Hiff a (list_elem_of_here a l)) as Ha.
  destruct (decide (P1 a)) as [H1|H1], (decide (P2 a)) as [H2|H2];
    tauto || done.
Qed.

Lemma length_filter_bool_split {A} (f : A -> bool) (l : list A) :
  (length (filter (fun x => f x = false) l)
   + length (filter (fun x => f x = true) l) = length l)%nat.
Proof.
  induction l as [|a l IH]; [done|].
  rewrite !filter_cons. destruct (f a) eqn:Hf.
  - rewrite decide_False, decide_True by done. cbn. lia.
  - rewrite decide_True, decide_False by done. cbn. lia.
Qed.

(** C2: over a directory whose listing [fis] names each file once, all with
    a recognized extension, [N] of them accepted by the loader and [M]
    rejected, the initial scan returns the nil error and leaves exactly [N]
    registry entries: one per accepted file, under the file's name and
    holding what the loader returned.  A rejected file has no entry and does
    not stop the scan. *)
Theorem initDags_skips_malformed_files env cfg fis :
  ReadDir env (admin.DAGs cfg) = Ok fis ->
  NoDup fis ->
  Forall (fun fi => MatchExtension env fi (EXTENSIONS env) = true) fis ->
  let dir := admin.DAGs cfg in
  let N := length (filter (fun fi => rejected env dir fi = false) fis) in
  let M := length (filter (fun fi => rejected env dir fi = true) fis) in
  let r := initDags env (emptyRegistry cfg) in
  value r = None
  /\ size (entryReader.dags (receiver r)) = N
  /\ (N + M = length fis)%nat
  /\ (forall fi d, fi ∈ fis -> LoadHeadOnly env (Join env dir fi) = Ok d ->
        entryReader.dags (receiver r) !! fi = Some d)
  /\ (forall fi, fi ∈ fis -> rejected env dir fi = true ->
        entryReader.dags (receiver r) !! fi = None)
  /\ (forall name, name ∉ fis -> entryReader.dags (receiver r) !! name = None).
Proof.
  intros Hdir Hnodup Hext. cbv zeta.
  destruct (initDags_run env (emptyRegistry cfg) fis Hdir) as [Hv Hr].
  rewrite Hr. clear Hr.
  set (dir := admin.DAGs cfg).
  assert (forall fi, fi ∈ fis -> accepted env dir fi = negb (rejected env dir fi))
    as Hacc.
  { intros fi Hin. unfold accepted, rejected.
    rewrite Forall_forall in Hext. rewrite (Hext fi Hin). cbn [andb].
    by rewrite negb_involutive. }
  split; [done|]. split; [|split; [|split; [|split]]].
  - rewrite <- size_dom, initDags_range_dom.
    cbn [emptyRegistry entryReader.dags entryReader.Admin]. fold dir.
    rewrite dom_empty_L, (left_id_L ∅ (∪)).
    rewrite size_list_to_set by by apply NoDup_filter.
    f_equal. apply filter_ext_elem_of.
    intros fi Hin. rewrite (Hacc fi Hin). by destruct (rejected env dir fi).
  - apply length_filter_bool_split.
  - intros fi d Hin Hl. rewrite initDags_range_lookup.
    cbn [emptyRegistry entryReader.dags entryReader.Admin]. fold dir.
    rewrite bool_decide_eq_true_2, (Hacc fi Hin) by done.
    unfold rejected. rewrite Hl. reflexivity.
  - intros fi Hin Hrej. rewrite initDags_range_lookup.
    cbn [emptyRegistry entryReader.dags entryReader.Admin]. fold dir.
    rewrite (Hacc fi Hin), Hrej. cbn [negb]. by rewrite andb_false_r.
  - intros name Hin. rewrite initDags_range_lookup.
    by rewrite bool_decide_eq_false_2.
Qed.

(** ** newEntryReader *)


(** ** One event applied to the registry *)

Lemma isReload_spec op :
  isReload op = true <-> op = fsnotify.Create \/ op = fsnotify.Write.
Proof.
  destruct op; cbn; split; intros Hop; try done;
    try (by left); try (by right); by destruct Hop.
Qed.

Lemma isRemoval_spec op :
  isRemoval op = true <-> op = fsnotify.Remove \/ op = fsnotify.Rename.
Proof.
  destruct op; cbn; split; intros Hop; try done;
    try (by left); try (by right); by destruct Hop.
Qed.

Lemma applyEvent_reload_run env event er :
  isReload (fsnotify.Event.Op event) = true ->
  let name := fsnotify.Event.Name event in
  let path := Join env (admin.DAGs (entryReader.Admin er)) (Base env name) in
  applyEvent env event er =
  match LoadHeadOnly env path with
  | Err err =>
    (tt, er,
     [ELock; ELoadHeadOnly path;
      ELog ("failed to read dag config: " +:+ err); EUnlock])
  | Ok d =>
    (tt, setDag (Base env name) d er,
     [ELock; ELoadHeadOnly path; ELog ("reload dag entry " +:+ name); EUnlock])
  end.
Proof.
  intros Hop. cbv zeta. unfold applyEvent.
  assert (isRemoval (fsnotify.Event.Op event) = false) as ->.
  { by destruct (fsnotify.Event.Op event). }
  rewrite Hop. run.
  destruct (LoadHeadOnly env _); reflexivity.
Qed.

Lemma applyEvent_removal_run env event er :
  isRemoval (fsnotify.Event.Op event) = true ->
  let name := fsnotify.Event.Name event in
  applyEvent env event er =
  (tt, deleteDag (Base env name) er,
   [ELock; ELog ("remove dag entry " +:+ name); EUnlock]).
Proof.
  intros Hop. cbv zeta. unfold applyEvent.
  assert (isReload (fsnotify.Event.Op event) = false) as ->.
  { by destruct (fsnotify.Event.Op event). }
  rewrite Hop. reflexivity.
Qed.

(** An event whose name has no recognized extension is dropped before the
    lock is taken; any other is applied, and the loop goes on. *)
Lemma watchDags_loop_event env event msgs er :
  receiver (watchDags_loop env (RecvEvent event :: msgs) er) =
  if MatchExtension env (fsnotify.Event.Name event) (EXTENSIONS env)
  then receiver (watchDags_loop env msgs (receiver (applyEvent env event er)))
  else receiver (watchDags_loop env msgs er).
Proof.
  cbn [watchDags_loop].
  destruct (MatchExtension env _ _); cbn [negb]; [|done].
  by rewrite receiver_bind.
Qed.

(** C3: a Created or Modified event is applied by reloading the file.  When
    the loader fails the reader, and so the registry, is what it was before
    the event; when it succeeds the entry under the base filename becomes the
    head the loader returned, and no other entry changes. *)
Theorem reload_replaces_entry_or_leaves_registry env event er :
  fsnotify.Event.Op event = fsnotify.Create
  \/ fsnotify.Event.Op event = fsnotify.Write ->
  let key := Base env (fsnotify.Event.Name event) in
  let path := Join env (admin.DAGs (entryReader.Admin er)) key in
  let er' := receiver (applyEvent env event er) in
  (forall err, LoadHeadOnly env path = Err err -> er' = er)
  /\ (forall d, LoadHeadOnly env path = Ok d ->
        entryReader.dags er' = <[key := d]> (entryReader.dags er)
        /\ entryReader.dags er' !! key = Some d
        /\ (forall k, k <> key ->
              entryReader.dags er' !! k = entryReader.dags er !! k)
        /\ entryReader.Admin er' = entryReader.Admin er).
Proof.
  intros Hop. apply isReload_spec in Hop. cbv zeta.
  rewrite (applyEvent_reload_run env event er Hop). cbv zeta.
  split.
  - intros err ->. reflexivity.
  - intros d ->. cbn [receiver fst snd setDag entryReader.dags entryReader.Admin].
    split; [done|]. split; [apply lookup_insert_eq|]. split; [|done].
    intros k Hk. by rewrite lookup_insert_ne.
Qed.

(** C4: a Removed or Renamed event is applied by deleting the entry under
    the event's base filename; nothing fails.  With no such entry the
    registry is unchanged, and applying the event once more changes nothing:
    twice is once. *)
Theorem removal_deletes_entry_idempotently env event er :
  fsnotify.Event.Op event = fsnotify.Remove
  \/ fsnotify.Event.Op event = fsnotify.Rename ->
  let key := Base env (fsnotify.Event.Name event) in
  let er' := receiver (applyEvent env event er) in
  entryReader.dags er' = delete key (entryReader.dags er)
  /\ entryReader.dags er' !! key = None
  /\ (forall k, k <> key ->
        entryReader.dags er' !! k = entryReader.dags er !! k)
  /\ entryReader.Admin er' = entryReader.Admin er
  /\ (entryReader.dags er !! key = None ->
        entryReader.dags er' = entryReader.dags er)
  /\ receiver (applyEvent env event er') = er'.
Proof.
  intros Hop. apply isRemoval_spec in Hop. cbv zeta.
  rewrite (applyEvent_removal_run env event er Hop). cbv zeta.
  cbn [receiver fst snd].
  rewrite (applyEvent_removal_run env event _ Hop). cbv zeta.
  cbn [receiver fst snd deleteDag entryReader.dags entryReader.Admin].
  split; [done|]. split; [apply lookup_delete_eq|].
  split; [intros k Hk; by rewrite lookup_delete_ne|]. split; [done|].
  split; [apply delete_id|].
  unfold deleteDag. cbn [entryReader.dags entryReader.Admin].
  by rewrite delete_delete_eq.
Qed.

(** ** The scope of the lock *)

Lemma lockHeld_cons held e t :
  lockHeld held (e :: t) = lockHeld (lockHeld held [e]) t.
Proof. by destruct e. Qed.

Lemma lockStateFrom_spec sel expected held t :
  lockStateFrom sel expected held t = true <->
  (forall pre e post,
     t = pre ++ e :: post -> sel e = true -> lockHeld held pre = expected).
Proof.
  revert held. induction t as [|e0 t IH]; intros held.
  - split; [|done]. intros _ pre e post Heq. by destruct pre.
  - cbn [lockStateFrom]. rewrite andb_true_iff, IH. split.
    + intros [Hhere Hrest] pre e post Heq Hsel.
      destruct pre as [|e1 pre]; cbn [app] in Heq; simplify_eq.
      * rewrite Hsel in Hhere. by apply Bool.eqb_prop.
      * rewrite lockHeld_cons. by eapply Hrest.
    + intros Hall. split.
      * destruct (sel e0) eqn:Hsel; [|done].
        pose proof (Hall [] e0 t eq_refl Hsel) as Hh. cbn in Hh. subst held.
        by destruct expected.
      * intros pre e post -> Hsel.
        rewrite <- lockHeld_cons. by apply (Hall (e0 :: pre) e post).
Qed.

Lemma underLock_check sel t :
  lockStateFrom sel true false t = true <-> underLock sel t.
Proof. apply lockStateFrom_spec. Qed.

Lemma outsideLock_check sel t :
  lockStateFrom sel false false t = true <-> outsideLock sel t.
Proof. apply lockStateFrom_spec. Qed.

Lemma suspension_checks_under_lock ds :
  lockStateFrom isSuspendCheck true true ((EIsSuspended <$> ds) ++ [EUnlock])
  = true.
Proof. induction ds as [|d ds IH]; [done|]. cbn. exact IH. Qed.

(** C5, as the code has it: [dagsLock] is taken before the event is looked
    at and released after the registry is updated, so the Definition Loader
    is invoked while the lock is held; and [Read] holds the lock from its
    first statement to its return, so every call of the Suspension Predicate
    happens while the lock is held. *)
Theorem loader_and_suspension_predicate_run_under_lock env :
  (forall event er,
     fsnotify.Event.Op event = fsnotify.Create
     \/ fsnotify.Event.Op event = fsnotify.Write ->
     let path := Join env (admin.DAGs (entryReader.Admin er))
                      (Base env (fsnotify.Event.Name event)) in
     (exists line,
        trace (applyEvent env event er) =
        [ELock; ELoadHeadOnly path; ELog line; EUnlock])
     /\ underLock isLoad (trace (applyEvent env event er)))
  /\ (forall now order er,
        trace (Read env now order er) =
        ELock :: (EIsSuspended <$> order.*2) ++ [EUnlock]
        /\ underLock isSuspendCheck (trace (Read env now order er))).
Proof.
  split.
  - intros event er Hop. apply isReload_spec in Hop. cbv zeta.
    rewrite (applyEvent_reload_run env event er Hop). cbv zeta.
    destruct (LoadHeadOnly env _); cbn [trace snd];
      (split; [by eexists|by apply underLock_check]).
  - intros now order er. rewrite Read_run. cbn [trace snd].
    split; [done|]. apply underLock_check. cbn.
    apply suspension_checks_under_lock.
Qed.

(** ** The next occurrence of a schedule expression *)




(** ** Debounced events *)






(** * Instances on the example directory *)

Lemma Invoke_dispatches_on_kind_witness :
  Invoke Example.env
    {| Entry.Next := 60%Z; Entry.Job := Some "a"; Entry.EntryType := EntryTypeStop |}
  = (Some "stop failed: a",
     {| Entry.Next := 60%Z; Entry.Job := Some "a"; Entry.EntryType := EntryTypeStop |},
     [ELog "[60] stop a"; EStop "a"]).
Proof.
  pose proof (Invoke_dispatches_on_kind Example.env
    {| Entry.Next := 60%Z; Entry.Job := Some "a";
       Entry.EntryType := EntryTypeStop |}) as H.
  cbn [Entry.Job] in H. destruct H as (_ & Hstop & _).
  exact (Hstop eq_refl).
Defined.

Lemma Read_emits_one_action_per_schedule_witness :
  rangeOrder Example.reader (map_to_list (entryReader.dags Example.reader))
  /\ (value (Read Example.env 100%Z
               (map_to_list (entryReader.dags Example.reader))
               Example.reader)).1
     ≡ₚ produce Example.env Example.cfg 100%Z
          (map_to_list (entryReader.dags Example.reader)).
Proof.
  assert (rangeOrder Example.reader
            (map_to_list (entryReader.dags Example.reader))) as Horder
    by (unfold rangeOrder; reflexivity).
  split; [exact Horder|].
  destruct (Read_emits_one_action_per_schedule Example.env 100%Z _ _ Horder)
    as (_ & Hperm & _).
  exact Hperm.
Defined.

Lemma initDags_skips_malformed_files_witness :
  ReadDir Example.env "/dags" = Ok ["a.yaml"; "b.yaml"; "paused.yaml"]
  /\ value (initDags Example.env (emptyRegistry Example.cfg)) = None
  /\ size (entryReader.dags
             (receiver (initDags Example.env (emptyRegistry Example.cfg)))) = 2%nat
  /\ entryReader.dags
       (receiver (initDags Example.env (emptyRegistry Example.cfg))) !! "b.yaml"
     = None.
Proof.
  assert (ReadDir Example.env (admin.DAGs Example.cfg)
          = Ok ["a.yaml"; "b.yaml"; "paused.yaml"]) as Hdir by reflexivity.
  assert (NoDup ["a.yaml"; "b.yaml"; "paused.yaml"]) as Hnodup.
  { apply (bool_decide_unpack _). vm_compute. exact I. }
  assert (Forall (fun fi => MatchExtension Example.env fi
                              (EXTENSIONS Example.env) = true)
                 ["a.yaml"; "b.yaml"; "paused.yaml"]) as Hext.
  { repeat constructor. }
  destruct (initDags_skips_malformed_files Example.env Example.cfg _
              Hdir Hnodup Hext) as (Hnil & Hsize & _ & _ & Hrej & _).
  split; [exact Hdir|]. split; [exact Hnil|]. split; [exact Hsize|].
  apply Hrej.
  - apply (bool_decide_unpack _). vm_compute. exact I.
  - reflexivity.
Defined.

Lemma reload_replaces_entry_or_leaves_registry_witness :
  fsnotify.Event.Op (Example.created "/dags/a.yaml") = fsnotify.Create
  /\ entryReader.dags
       (receiver (applyEvent Example.env (Example.created "/dags/a.yaml")
                    Example.emptyReader)) !! "a.yaml"
     = Some Example.dagA
  /\ receiver (applyEvent Example.env (Example.created "/dags/b.yaml")
                 Example.reader)
     = Example.reader.
Proof.
  split; [reflexivity|]. split.
  - destruct (reload_replaces_entry_or_leaves_registry Example.env
                (Example.created "/dags/a.yaml") Example.emptyReader
                (or_introl eq_refl)) as (_ & Hok).
    destruct (Hok Example.dagA eq_refl) as (_ & Hkey & _).
    exact Hkey.
  - destruct (reload_replaces_entry_or_leaves_registry Example.env
                (Example.created "/dags/b.yaml") Example.reader
                (or_introl eq_refl)) as (Herr & _).
    exact (Herr "cannot load /dags/b.yaml" eq_refl).
Defined.

Lemma removal_deletes_entry_idempotently_witness :
  fsnotify.Event.Op (Example.removed "/dags/a.yaml") = fsnotify.Remove
  /\ entryReader.dags
       (receiver (applyEvent Example.env (Example.removed "/dags/a.yaml")
                    Example.reader)) !! "a.yaml"
     = None
  /\ receiver
       (applyEvent Example.env (Example.removed "/dags/a.yaml")
          (receiver (applyEvent Example.env (Example.removed "/dags/a.yaml")
                       Example.reader)))
     = receiver (applyEvent Example.env (Example.removed "/dags/a.yaml")
                   Example.reader).
Proof.
  split; [reflexivity|].
  destruct (removal_deletes_entry_idempotently Example.env
              (Example.removed "/dags/a.yaml") Example.reader
              (or_introl eq_refl)) as (_ & Hgone & _ & _ & _ & Htwice).
  split; [exact Hgone|exact Htwice].
Defined.

(** C5 as stated fails on the example directory: the loader runs, and the
    suspension predicate is consulted, with the lock held. *)
Lemma loader_and_suspension_predicate_not_outside_lock :
  ~ outsideLock isLoad
      (trace (applyEvent Example.env (Example.created "/dags/a.yaml")
                Example.emptyReader))
  /\ ~ outsideLock isSuspendCheck
         (trace (Read Example.env 100%Z
                   [("a.yaml", Example.dagA); ("paused.yaml", Example.dagPaused)]
                   Example.reader)).
Proof.
  split.
  - intros H.
    specialize (H [ELock] (ELoadHeadOnly "/dags/a.yaml")
                  [ELog "reload dag entry /dags/a.yaml"; EUnlock]
                  eq_refl eq_refl).
    discriminate H.
  - intros H.
    specialize (H [ELock] (EIsSuspended Example.dagA)
                  [EIsSuspended Example.dagPaused; EUnlock]
                  eq_refl eq_refl).
    discriminate H.
Qed.

Lemma loader_and_suspension_predicate_run_under_lock_witness :
  fsnotify.Event.Op (Example.created "/dags/a.yaml") = fsnotify.Create
  /\ underLock isLoad
       (trace (applyEvent Example.env (Example.created "/dags/a.yaml")
                 Example.emptyReader))
  /\ underLock isSuspendCheck
       (trace (Read Example.env 100%Z
                 [("a.yaml", Example.dagA); ("paused.yaml", Example.dagPaused)]
                 Example.reader)).
Proof.
  destruct (loader_and_suspension_predicate_run_under_lock Example.env)
    as (Hload & Hread).
  split; [reflexivity|]. split.
  - exact (proj2 (Hload (Example.created "/dags/a.yaml") Example.emptyReader
                    (or_introl eq_refl))).
  - exact (proj2 (Hread 100%Z _ Example.reader)).
Defined.




(** * Further properties of the reader *)

(** ** The scan of the directory *)

(** X1: [initDags] returns an error exactly when [os.ReadDir] does, and that
    same error; the registry is then untouched, the loader is not called, and
    the lock is released by the deferred [Unlock]. *)
Theorem initDags_fails_only_when_listing_fails env er :
  match ReadDir env (admin.DAGs (entryReader.Admin er)) with
  | Err err =>
    initDags env er =
    (Some err, er,
     [ELock; EReadDir (admin.DAGs (entryReader.Admin er)); EUnlock])
  | Ok fis => value (initDags env er) = None
  end.
Proof.
  destruct (ReadDir env _) as [fis|err] eqn:Hdir.
  - by destruct (initDags_run env er fis Hdir).
  - unfold initDags. run. rewrite Hdir. reflexivity.
Qed.

(** X2: a scan never removes an entry and never touches the entry of a name
    it does not load: on a registry that already has entries, those of
    names that are not listed, not recognized or not loadable stay as they
    are, and the keys afterwards are the old keys and the accepted names. *)
Theorem initDags_keeps_other_entries env er fis :
  ReadDir env (admin.DAGs (entryReader.Admin er)) = Ok fis ->
  let dir := admin.DAGs (entryReader.Admin er) in
  let er' := receiver (initDags env er) in
  entryReader.Admin er' = entryReader.Admin er
  /\ dom (entryReader.dags er') =
     dom (entryReader.dags er)
     ∪ list_to_set (filter (fun fi => accepted env dir fi = true) fis)
  /\ (forall name, name ∉ fis \/ accepted env dir name = false ->
        entryReader.dags er' !! name = entryReader.dags er !! name).
Proof.
  intros Hdir. cbv zeta.
  destruct (initDags_run env er fis Hdir) as [_ ->].
  split; [apply initDags_range_Admin|]. split; [apply initDags_range_dom|].
  intros name Hname. rewrite initDags_range_lookup.
  destruct Hname as [Hnot | ->].
  - by rewrite bool_decide_eq_false_2.
  - by rewrite andb_false_r.
Qed.

(** X3: the registry a scan leaves does not depend on the order in which
    the directory lists the files. *)
Theorem initDags_range_order_irrelevant env fis fis' names names' er :
  fis ≡ₚ fis' ->
  entryReader.dags (receiver (initDags_range env fis names er))
  = entryReader.dags (receiver (initDags_range env fis' names' er)).
Proof.
  intros Hperm. apply map_eq. intros name.
  rewrite !initDags_range_lookup.
  assert (bool_decide (name ∈ fis) = bool_decide (name ∈ fis')) as ->; [|done].
  apply bool_decide_ext. by rewrite Hperm.
Qed.

Lemma initDags_range_value env fis names er :
  value (initDags_range env fis names er) =
  names ++ filter
    (fun fi => accepted env (admin.DAGs (entryReader.Admin er)) fi = true) fis.
Proof.
  revert names er. induction fis as [|fi fis IH]; intros names er.
  - cbn. by rewrite app_nil_r.
  - cbn [initDags_range].
    destruct (MatchExtension env fi (EXTENSIONS env)) eqn:Hm.
    + project.
      destruct (LoadHeadOnly env _) as [d|err] eqn:Hl; project; rewrite IH;
        cbn [setDag entryReader.Admin].
      * rewrite filter_cons_True by (unfold accepted; by rewrite Hm, Hl).
        by rewrite <- app_assoc.
      * by rewrite filter_cons_False
          by (unfold accepted; rewrite Hm, Hl; cbn; done).
    + rewrite IH.
      by rewrite filter_cons_False by (unfold accepted; rewrite Hm; cbn; done).
Qed.

Lemma initDags_range_loads env fis names er :
  filter (fun e => isLoad e = true) (trace (initDags_range env fis names er)) =
  ELoadHeadOnly <$>
    (Join env (admin.DAGs (entryReader.Admin er)) <$>
       filter (fun fi => recognized env fi = true) fis).
Proof.
  revert names er. induction fis as [|fi fis IH]; intros names er; [done|].
  cbn [initDags_range].
  destruct (MatchExtension env fi (EXTENSIONS env)) eqn:Hm.
  - rewrite (filter_cons_True _ fi fis) by (unfold recognized; by rewrite Hm).
    project.
    destruct (LoadHeadOnly env _) as [d|err]; project.
    + rewrite filter_cons_True by done. rewrite IH. done.
    + rewrite filter_cons_True by done.
      rewrite filter_cons_False by (cbn; done). rewrite IH. done.
  - rewrite (filter_cons_False _ fi fis)
      by (unfold recognized; rewrite Hm; done).
    apply IH.
Qed.

Lemma initDags_range_logs env fis names er :
  length (filter (fun e => isLog e = true)
            (trace (initDags_range env fis names er))) =
  length (filter
            (fun fi => recognized env fi = true
                       /\ rejected env (admin.DAGs (entryReader.Admin er)) fi
                          = true) fis).
Proof.
  revert names er. induction fis as [|fi fis IH]; intros names er; [done|].
  cbn [initDags_range].
  destruct (MatchExtension env fi (EXTENSIONS env)) eqn:Hm.
  - project.
    destruct (LoadHeadOnly env _) as [d|err] eqn:Hl; project.
    + rewrite filter_cons_False by (cbn; done).
      rewrite (filter_cons_False _ fi fis)
        by (unfold rejected; rewrite Hl; cbn; by intros [_ ?]).
      rewrite IH. done.
    + rewrite filter_cons_False by (cbn; done).
      rewrite filter_cons_True by done.
      rewrite (filter_cons_True _ fi fis)
        by (unfold recognized, rejected; by rewrite Hm, Hl).
      cbn [length]. by rewrite IH.
  - rewrite (filter_cons_False _ fi fis)
      by (unfold recognized; rewrite Hm; by intros [? _]).
    apply IH.
Qed.

(** X4: a scan calls the loader once for each listed name with a recognized
    extension, in the order of the listing and on the name joined to the
    directory, and for no other name; it logs one line for each such file
    the loader rejects, and one line more, which lists the names loaded. *)
Theorem initDags_loads_each_recognized_file_once env er fis :
  ReadDir env (admin.DAGs (entryReader.Admin er)) = Ok fis ->
  let dir := admin.DAGs (entryReader.Admin er) in
  let t := trace (initDags env er) in
  filter (fun e => isLoad e = true) t =
    ELoadHeadOnly <$>
      (Join env dir <$> filter (fun fi => recognized env fi = true) fis)
  /\ length (filter (fun e => isLog e = true) t) =
     S (length (filter (fun fi => recognized env fi = true
                                  /\ rejected env dir fi = true) fis))
  /\ last t = Some EUnlock
  /\ ELog ("init scheduler dags: "
           +:+ strings_Join
                 (filter (fun fi => accepted env dir fi = true) fis) ",") ∈ t.
Proof.
  intros Hdir. cbv zeta.
  assert (trace (initDags env er) =
          [ELock; EReadDir (admin.DAGs (entryReader.Admin er))]
          ++ trace (initDags_range env fis [] er)
          ++ [ELog ("init scheduler dags: "
                    +:+ strings_Join
                          (filter (fun fi => accepted env
                             (admin.DAGs (entryReader.Admin er)) fi = true) fis)
                          ","); EUnlock]) as ->.
  { unfold initDags. project. rewrite Hdir. project.
    rewrite initDags_range_value. reflexivity. }
  split; [|split; [|split]].
  - rewrite !filter_app, initDags_range_loads.
    rewrite !filter_cons_False by (cbn; done).
    rewrite filter_nil. cbn [app]. by rewrite app_nil_r.
  - rewrite !filter_app, !length_app, initDags_range_logs.
    rewrite !filter_cons_False by (cbn; done).
    rewrite filter_cons_True by done.
    rewrite filter_cons_False by (cbn; done).
    cbn [length filter list_filter]. lia.
  - match goal with
    | |- last (?a ++ ?b ++ [?x; EUnlock]) = _ =>
      change (a ++ b ++ [x; EUnlock]) with (a ++ b ++ [x] ++ [EUnlock])
    end.
    rewrite !app_assoc. apply last_snoc.
  - set_solver.
Qed.

(** ** The lock *)

Lemma lockHeld_app held t1 t2 :
  lockHeld held (t1 ++ t2) = lockHeld (lockHeld held t1) t2.
Proof.
  revert held. induction t1 as [|e t1 IH]; intros held; [done|].
  destruct e; cbn; apply IH.
Qed.

Lemma lockStateFrom_app sel expected held t1 t2 :
  lockStateFrom sel expected held (t1 ++ t2) =
  lockStateFrom sel expected held t1
  && lockStateFrom sel expected (lockHeld held t1) t2.
Proof.
  revert held. induction t1 as [|e t1 IH]; intros held; [done|].
  cbn [app lockStateFrom]. rewrite IH, <- andb_assoc.
  by rewrite (lockHeld_cons held e t1).
Qed.

Lemma initDags_range_lock env fis names er held :
  lockHeld held (trace (initDags_range env fis names er)) = held.
Proof.
  revert names er. induction fis as [|fi fis IH]; intros names er; [done|].
  cbn [initDags_range].
  destruct (MatchExtension env fi (EXTENSIONS env)); [|apply IH].
  project. destruct (LoadHeadOnly env _); project; cbn [lockHeld]; apply IH.
Qed.

Lemma held_as_expected (b : bool) :
  (if b then Bool.eqb true true else true) = true.
Proof. by destruct b. Qed.

Lemma initDags_range_under_lock env fis names er sel :
  lockStateFrom sel true true (trace (initDags_range env fis names er)) = true.
Proof.
  revert names er. induction fis as [|fi fis IH]; intros names er; [done|].
  cbn [initDags_range].
  destruct (MatchExtension env fi (EXTENSIONS env)); [|apply IH].
  project. destruct (LoadHeadOnly env _); project;
    cbn [lockStateFrom lockHeld]; rewrite IH, !held_as_expected; done.
Qed.

Lemma applyEvent_lock env event er :
  lockHeld false (trace (applyEvent env event er)) = false
  /\ lockStateFrom isLoad true false (trace (applyEvent env event er)) = true.
Proof.
  destruct (isReload (fsnotify.Event.Op event)) eqn:Hop.
  - rewrite (applyEvent_reload_run env event er Hop). cbv zeta.
    by destruct (LoadHeadOnly env _).
  - assert (isRemoval (fsnotify.Event.Op event) = true) as Hrm.
    { by destruct (fsnotify.Event.Op event). }
    by rewrite (applyEvent_removal_run env event er Hrm).
Qed.

Lemma watchDags_loop_lock env msgs er :
  lockHeld false (trace (watchDags_loop env msgs er)) = false
  /\ lockStateFrom isLoad true false (trace (watchDags_loop env msgs er)) = true.
Proof.
  revert er. induction msgs as [|msg msgs IH]; intros er; [done|].
  destruct msg as [event| |err|]; cbn [watchDags_loop]; try done.
  - destruct (MatchExtension env _ _); cbn [negb]; [|apply IH].
    rewrite trace_bind.
    destruct (applyEvent_lock env event er) as [Hheld Hsel].
    destruct (IH (receiver (applyEvent env event er))) as [IHheld IHsel].
    by rewrite lockHeld_app, lockStateFrom_app, Hheld, Hsel, IHsel.
  - project. apply IH.
Qed.

Lemma initDags_lock env er :
  lockHeld false (trace (initDags env er)) = false.
Proof.
  unfold initDags. project.
  destruct (ReadDir env _) as [fis|err]; [|done].
  project. cbn [lockHeld].
  by rewrite lockHeld_app, initDags_range_lock.
Qed.

(** X5: every method leaves [dagsLock] released, on every path: the scan
    also when the listing fails, the watch loop after any messages, and
    [watchDags] however it ends. *)
Theorem every_method_releases_the_lock env er :
  lockHeld false (trace (initDags env er)) = false
  /\ (forall now order, lockHeld false (trace (Read env now order er)) = false)
  /\ (forall event, lockHeld false (trace (applyEvent env event er)) = false)
  /\ (forall msgs, lockHeld false (trace (watchDags_loop env msgs er)) = false)
  /\ (forall watcher, lockHeld false (trace (watchDags env watcher er)) = false).
Proof.
  split; [|split; [|split; [|split]]].
  - apply initDags_lock.
  - intros now order. rewrite Read_run. cbn [trace snd lockHeld].
    rewrite lockHeld_app. cbn [lockHeld].
    generalize (order.*2). intros ds. by induction ds.
  - intros event. apply applyEvent_lock.
  - intros msgs. apply watchDags_loop_lock.
  - intros [msgs|err]; [|done]. unfold watchDags. project. cbn [lockHeld].
    rewrite lockHeld_app.
    destruct (watchDags_loop_lock env msgs er) as [-> _].
    by destruct (value (watchDags_loop env msgs er)).
Qed.

(** X6: the file system is only touched with the lock held: the scan lists
    the directory and calls the loader between [Lock] and the deferred
    [Unlock], and the watch loop calls the loader inside the lock for every
    event it reloads, over any sequence of messages. *)
Theorem file_system_is_read_under_lock env er :
  underLock (fun e => isReadDir e || isLoad e) (trace (initDags env er))
  /\ (forall msgs, underLock isLoad (trace (watchDags_loop env msgs er)))
  /\ (forall watcher, underLock isLoad (trace (watchDags env watcher er))).
Proof.
  split; [|split].
  - apply underLock_check. unfold initDags. project.
    destruct (ReadDir env _) as [fis|err]; [|done].
    project. cbn [lockStateFrom lockHeld isReadDir isLoad orb andb Bool.eqb].
    rewrite lockStateFrom_app, initDags_range_under_lock, initDags_range_lock.
    done.
  - intros msgs. apply underLock_check. apply watchDags_loop_lock.
  - intros [msgs|err]; apply underLock_check; [|done].
    unfold watchDags. project. cbn [lockStateFrom lockHeld isLoad andb].
    rewrite lockStateFrom_app.
    destruct (watchDags_loop_lock env msgs er) as [-> ->].
    by destruct (value (watchDags_loop env msgs er)).
Qed.

(** ** What Read hands out *)

Lemma elem_of_actionsOf_group cfg now d e :
  e ∈ actionsOf cfg now d ->
  exists kind expr,
    e = action cfg now d kind expr
    /\ ((kind = EntryTypeStart /\ expr ∈ dag.DAG.Schedule d)
        \/ (kind = EntryTypeStop /\ expr ∈ dag.DAG.StopSchedule d)
        \/ (kind = EntryTypeRestart /\ expr ∈ dag.DAG.RestartSchedule d)).
Proof.
  unfold actionsOf. rewrite !elem_of_app, !list_elem_of_fmap.
  intros [(expr & -> & Hin)|[(expr & -> & Hin)|(expr & -> & Hin)]];
    eexists _, expr; (split; [reflexivity|]); eauto.
Qed.

(** X7: every Entry that [Read] returns is complete: its job holds a
    definition that is in the registry and not suspended, the reader's
    configuration, and the same instant as the Entry itself; its kind is one
    of the three constants, and its instant is [Next(now)] of an expression
    of the group of that kind. *)
Theorem Read_entries_are_complete env now order er e :
  rangeOrder er order ->
  e ∈ (value (Read env now order er)).1 ->
  exists k d expr,
    entryReader.dags er !! k = Some d
    /\ IsSuspended env d = false
    /\ Entry.Job e = Some {| job.DAG := d;
                             job.Config := entryReader.Admin er;
                             job.Next := Entry.Next e |}
    /\ Entry.Next e = cron.Next (dag.Parsed expr) now
    /\ ((Entry.EntryType e = EntryTypeStart /\ expr ∈ dag.DAG.Schedule d)
        \/ (Entry.EntryType e = EntryTypeStop
            /\ expr ∈ dag.DAG.StopSchedule d)
        \/ (Entry.EntryType e = EntryTypeRestart
            /\ expr ∈ dag.DAG.RestartSchedule d)).
Proof.
  intros Horder. rewrite Read_run. cbn [value fst].
  intros He. apply elem_of_produce in He as (k & d & Hin & Hs & He).
  apply elem_of_actionsOf_group in He as (kind & expr & -> & Hgroup).
  exists k, d, expr. split.
  { apply elem_of_map_to_list. by rewrite <- Horder. }
  split; [done|]. split; [done|]. split; [done|]. exact Hgroup.
Qed.

(** X8: invoking an Entry that [Read] returned always reaches the job: it
    makes exactly one call, of the method of the Entry's kind, returns the
    error of that call, and leaves the Entry as it is. *)
Theorem Read_entries_invoke_one_job_method `{!Job.t job.t}
    env now order er e :
  e ∈ (value (Read env now order er)).1 ->
  exists j,
    Entry.Job e = Some j
    /\ receiver (Invoke env e) = e
    /\ ((Entry.EntryType e = EntryTypeStart
         /\ value (Invoke env e) = Job.Start j
         /\ filter (fun c => isJobCall c = true) (trace (Invoke env e))
            = [EStart (Job.String j)])
        \/ (Entry.EntryType e = EntryTypeStop
            /\ value (Invoke env e) = Job.Stop j
            /\ filter (fun c => isJobCall c = true) (trace (Invoke env e))
               = [EStop (Job.String j)])
        \/ (Entry.EntryType e = EntryTypeRestart
            /\ value (Invoke env e) = Job.Restart j
            /\ filter (fun c => isJobCall c = true) (trace (Invoke env e))
               = [ERestart (Job.String j)])).
Proof.
  rewrite Read_run. cbn [value fst].
  intros He. apply elem_of_produce in He as (k & d & _ & _ & He).
  apply elem_of_actionsOf_group in He as (kind & expr & -> & Hgroup).
  eexists. split; [reflexivity|].
  destruct Hgroup as [[-> _]|[[-> _]|[-> _]]].
  - split; [done|]. left. done.
  - split; [done|]. right. left. done.
  - split; [done|]. right. right. done.
Qed.

(** X9: one call of [Read] consults the suspension predicate exactly once
    for each entry of the registry, and does nothing else between taking and
    releasing the lock: it lists no directory, loads no file, logs nothing
    and calls no job. *)
Theorem Read_consults_suspension_once_per_entry env now order er :
  rangeOrder er order ->
  let t := trace (Read env now order er) in
  filter (fun e => isSuspendCheck e = true) t
    ≡ₚ EIsSuspended <$> (map_to_list (entryReader.dags er)).*2
  /\ length (filter (fun e => isSuspendCheck e = true) t)
     = size (entryReader.dags er)
  /\ length t = (size (entryReader.dags er) + 2)%nat
  /\ (forall k d, entryReader.dags er !! k = Some d -> EIsSuspended d ∈ t).
Proof.
  intros Horder. cbv zeta. rewrite Read_run. cbn [trace snd].
  assert (filter (fun e => isSuspendCheck e = true)
            (ELock :: (EIsSuspended <$> order.*2) ++ [EUnlock])
          = EIsSuspended <$> order.*2) as Hfilter.
  { rewrite filter_cons_False by (cbn; done).
    rewrite filter_app, (filter_cons_False _ EUnlock) by (cbn; done).
    rewrite filter_nil, app_nil_r.
    generalize (order.*2). intros ds. induction ds as [|d ds IH]; [done|].
    rewrite fmap_cons, filter_cons_True by done. by rewrite IH. }
  assert (length order = size (entryReader.dags er)) as Hlen.
  { unfold rangeOrder in Horder. rewrite Horder.
    apply length_map_to_list. }
  rewrite Hfilter. split; [by rewrite Horder|].
  split; [by rewrite !length_fmap|].
  split.
  { cbn [length]. rewrite length_app, !length_fmap. cbn [length]. lia. }
  intros k d Hk. apply list_elem_of_further, elem_of_app. left.
  apply list_elem_of_fmap. exists d. split; [done|].
  apply list_elem_of_fmap. exists (k, d). split; [done|].
  rewrite Horder. by apply elem_of_map_to_list.
Qed.

Lemma length_actionsOf cfg now d :
  length (actionsOf cfg now d) = scheduleCount d.
Proof.
  unfold actionsOf, scheduleCount. rewrite !length_app, !length_fmap. lia.
Qed.

Lemma length_produce env cfg now snapshot :
  length (produce env cfg now snapshot) =
  sum_list_with
    (fun kd => if IsSuspended env kd.2 then 0%nat else scheduleCount kd.2)
    snapshot.
Proof.
  unfold produce. induction snapshot as [|kd l IH]; [done|].
  cbn [flat_map sum_list_with]. rewrite length_app, IH.
  destruct (IsSuspended env kd.2); [done|]. by rewrite length_actionsOf.
Qed.

(** X10: the number of Entries [Read] returns is the number of schedule
    expressions, of the three groups together, of the definitions that are
    not suspended; [Read] returns none exactly when every definition of the
    registry is suspended or has no schedule expression at all. *)
Theorem Read_counts_schedules_of_active_definitions env now order er :
  rangeOrder er order ->
  let entries := (value (Read env now order er)).1 in
  length entries =
    sum_list_with
      (fun kd => if IsSuspended env kd.2 then 0%nat else scheduleCount kd.2)
      (map_to_list (entryReader.dags er))
  /\ (entries = [] <->
      forall k d, entryReader.dags er !! k = Some d ->
        IsSuspended env d = true \/ scheduleCount d = 0%nat).
Proof.
  intros Horder. cbv zeta. rewrite Read_run. cbn [value fst].
  split.
  { rewrite length_produce. by rewrite Horder. }
  split.
  - intros Hnil k d Hk.
    destruct (IsSuspended env d) eqn:Hs; [by left|right].
    assert ((k, d) ∈ order) as Hin
      by (rewrite Horder; by apply elem_of_map_to_list).
    apply (sum_list_with_in _
             (fun kd => if IsSuspended env kd.2 then 0%nat
                        else scheduleCount kd.2)) in Hin.
    rewrite <- (length_produce env (entryReader.Admin er) now), Hnil in Hin.
    cbn in Hin.
    rewrite Hs in Hin. lia.
  - intros Hall. apply length_zero_iff_nil. rewrite length_produce.
    assert (Forall (fun kd : string * dag.DAG.t =>
                      (if IsSuspended env kd.2 then 0%nat
                       else scheduleCount kd.2) = 0%nat) order) as Hzero.
    { apply Forall_forall. intros [k d] Hin. cbn.
      rewrite Horder in Hin. apply elem_of_map_to_list in Hin.
      destruct (Hall k d Hin) as [->| ->]; [done|by destruct (IsSuspended _ _)]. }
    clear Horder Hall. induction Hzero as [|kd l Hkd _ IH]; [done|].
    cbn [sum_list_with]. by rewrite Hkd, IH.
Qed.

(** ** Events, one after the other *)

(** What one event does to the reader. *)
Lemma applyEvent_receiver env event er :
  receiver (applyEvent env event er) =
  let key := Base env (fsnotify.Event.Name event) in
  if isReload (fsnotify.Event.Op event) then
    match LoadHeadOnly env
            (Join env (admin.DAGs (entryReader.Admin er)) key) with
    | Ok d => setDag key d er
    | Err _ => er
    end
  else deleteDag key er.
Proof.
  cbv zeta. destruct (isReload (fsnotify.Event.Op event)) eqn:Hop.
  - rewrite (applyEvent_reload_run env event er Hop). cbv zeta.
    by destruct (LoadHeadOnly env _).
  - assert (isRemoval (fsnotify.Event.Op event) = true) as Hrm.
    { by destruct (fsnotify.Event.Op event). }
    by rewrite (applyEvent_removal_run env event er Hrm).
Qed.

Lemma applyEvent_Admin env event er :
  entryReader.Admin (receiver (applyEvent env event er)) = entryReader.Admin er.
Proof.
  rewrite applyEvent_receiver. cbv zeta.
  destruct (isReload _); [|done]. by destruct (LoadHeadOnly env _).
Qed.

(** X11: events for different base filenames can be applied in either
    order: the reader is the same afterwards. *)
Theorem events_of_different_files_commute env e1 e2 er :
  Base env (fsnotify.Event.Name e1) <> Base env (fsnotify.Event.Name e2) ->
  receiver (applyEvent env e2 (receiver (applyEvent env e1 er)))
  = receiver (applyEvent env e1 (receiver (applyEvent env e2 er))).
Proof.
  intros Hne.
  rewrite (applyEvent_receiver env e2 (receiver _)),
          (applyEvent_receiver env e1 (receiver _)).
  rewrite !applyEvent_Admin. rewrite !applyEvent_receiver. cbv zeta.
  destruct (isReload (fsnotify.Event.Op e1)),
           (isReload (fsnotify.Event.Op e2));
    repeat
      match goal with
      | |- context [LoadHeadOnly env ?p] => destruct (LoadHeadOnly env p)
      end;
    try done; unfold setDag, deleteDag;
    cbn [entryReader.Admin entryReader.dags]; f_equal.
  - by apply insert_insert_ne.
  - by rewrite delete_insert_ne.
  - by rewrite delete_insert_ne.
  - apply delete_delete.
Qed.

(** X12: of two events for the same base filename the later one decides:
    when it is a removal, or a reload the loader accepts, the reader is the
    same as if the earlier event had not come; when it is a reload the loader
    rejects, the reader is as the earlier event left it. *)
Theorem later_event_of_a_file_decides env e1 e2 er :
  Base env (fsnotify.Event.Name e1) = Base env (fsnotify.Event.Name e2) ->
  let path := Join env (admin.DAGs (entryReader.Admin er))
                   (Base env (fsnotify.Event.Name e2)) in
  let both := receiver (applyEvent env e2 (receiver (applyEvent env e1 er))) in
  (isRemoval (fsnotify.Event.Op e2) = true
   \/ is_Ok (LoadHeadOnly env path) = true ->
   both = receiver (applyEvent env e2 er))
  /\ (isReload (fsnotify.Event.Op e2) = true ->
      is_Ok (LoadHeadOnly env path) = false ->
      both = receiver (applyEvent env e1 er)).
Proof.
  intros Hkey. cbv zeta.
  rewrite (applyEvent_receiver env e2 (receiver _)).
  rewrite !applyEvent_Admin. rewrite !applyEvent_receiver. cbv zeta.
  rewrite Hkey. split.
  - intros Hlast.
    destruct (isReload (fsnotify.Event.Op e2)) eqn:H2.
    + destruct Hlast as [Hrm|Hok]; [by destruct (fsnotify.Event.Op e2)|].
      destruct (LoadHeadOnly env _) as [d2|]; [|done].
      destruct (isReload (fsnotify.Event.Op e1));
        unfold setDag, deleteDag;
        cbn [entryReader.Admin entryReader.dags]; f_equal.
      * apply insert_insert_eq.
      * apply insert_delete_eq.
    + destruct (isReload (fsnotify.Event.Op e1));
        try destruct (LoadHeadOnly env _); try done;
        unfold setDag, deleteDag;
        cbn [entryReader.Admin entryReader.dags]; f_equal;
        first [apply delete_insert_eq | apply delete_delete_eq].
  - intros -> Hrej. by destruct (LoadHeadOnly env _).
Qed.

(** ** The watch loop *)

Lemma run_eta {S A} (r : A * S * list Effect) :
  r = (value r, receiver r, trace r).
Proof. by destruct r as [[a s] t]. Qed.

Lemma watchDags_loop_value env msgs er :
  value (watchDags_loop env msgs er) =
  if existsb isClose msgs then Returned else Waiting.
Proof.
  revert er. induction msgs as [|msg msgs IH]; intros er; [done|].
  destruct msg as [event| |err|]; cbn [watchDags_loop existsb isClose orb];
    try done.
  - destruct (MatchExtension env _ _); cbn [negb]; [|apply IH].
    rewrite value_bind. apply IH.
  - rewrite value_bind. apply IH.
Qed.

(** X13: the watch loop returns exactly when one of the watcher's channels
    is closed, and otherwise keeps waiting; what the channels deliver after
    the close is never looked at.  [watchDags] adds the directory to the
    watcher first, and closes the watcher, as its last effect, exactly when
    the loop returns. *)
Theorem watch_loop_ends_at_the_first_close env er :
  (forall msgs,
     value (watchDags_loop env msgs er) =
     if existsb isClose msgs then Returned else Waiting)
  /\ (forall msgs close rest,
        isClose close = true ->
        watchDags_loop env (msgs ++ close :: rest) er
        = watchDags_loop env (msgs ++ [close]) er)
  /\ (forall msgs,
        watchDags env (Ok msgs) er =
        (value (watchDags_loop env msgs er),
         receiver (watchDags_loop env msgs er),
         EWatcherAdd (admin.DAGs (entryReader.Admin er))
         :: trace (watchDags_loop env msgs er)
         ++ (if existsb isClose msgs then [EWatcherClose] else []))).
Proof.
  split; [intros msgs; apply watchDags_loop_value|]. split.
  - intros msgs close rest Hclose. revert er.
    induction msgs as [|msg msgs IH]; intros er.
    + by destruct close.
    + destruct msg as [event| |err|]; cbn [app watchDags_loop]; try done.
      * destruct (MatchExtension env _ _); cbn [negb]; [|apply IH].
        rewrite !bind_run. destruct (applyEvent env event er) as [[[] er1] t1].
        by rewrite IH.
      * rewrite !bind_run. cbn [emit]. by rewrite IH.
  - intros msgs. rewrite (run_eta (watchDags env (Ok msgs) er)).
    unfold watchDags. project. rewrite !watchDags_loop_value.
    destruct (existsb isClose msgs); project; by rewrite ?app_nil_r.
Qed.

Lemma applyEvent_other_keys env event er k :
  k <> Base env (fsnotify.Event.Name event) ->
  entryReader.dags (receiver (applyEvent env event er)) !! k
  = entryReader.dags er !! k.
Proof.
  intros Hk. rewrite applyEvent_receiver. cbv zeta.
  destruct (isReload _); [destruct (LoadHeadOnly env _)|];
    cbn [setDag deleteDag entryReader.dags]; try done.
  - by rewrite lookup_insert_ne.
  - by rewrite lookup_delete_ne.
Qed.

(** X14: the watch loop only ever changes the entries of the files its
    events name: over any messages, the configuration stays, and an entry
    stays as it is unless some event with a recognized name has its key as
    base filename; errors of the watcher change nothing. *)
Theorem watch_loop_changes_only_named_entries env msgs er :
  let er' := receiver (watchDags_loop env msgs er) in
  entryReader.Admin er' = entryReader.Admin er
  /\ (forall k,
        (forall event, RecvEvent event ∈ msgs ->
           recognized env (fsnotify.Event.Name event) = true ->
           Base env (fsnotify.Event.Name event) <> k) ->
        entryReader.dags er' !! k = entryReader.dags er !! k)
  /\ ((forall event, RecvEvent event ∉ msgs) -> er' = er).
Proof.
  cbv zeta. revert er. induction msgs as [|msg msgs IH]; intros er; [done|].
  destruct msg as [event| |err|]; try done.
  - rewrite watchDags_loop_event.
    destruct (IH er) as (IHa & IHk & _).
    destruct (IH (receiver (applyEvent env event er))) as (IHa' & IHk' & _).
    split; [|split].
    + destruct (MatchExtension env _ _); [|done].
      by rewrite IHa', applyEvent_Admin.
    + intros k Hk.
      destruct (MatchExtension env _ _) eqn:Hm.
      * rewrite IHk' by (intros ev Hev; apply Hk; by right).
        apply applyEvent_other_keys. intros ->.
        apply (Hk event); [by left|done|done].
      * apply IHk. intros ev Hev. apply Hk. by right.
    + intros Hnone. exfalso. apply (Hnone event). by left.
  - cbn [watchDags_loop]. rewrite !receiver_bind.
    cbn [emit value receiver fst snd].
    destruct (IH er) as (IHa & IHk & IHn).
    split; [done|]. split.
    + intros k Hk. apply IHk. intros ev Hev. apply Hk. by right.
    + intros Hnone. apply IHn. intros ev Hev. apply (Hnone ev). by right.
Qed.

Lemma initDags_keys env er :
  (forall k, is_Some (entryReader.dags er !! k) -> recognized env k = true) ->
  forall k, is_Some (entryReader.dags (receiver (initDags env er)) !! k) ->
    recognized env k = true.
Proof.
  intros Hinv k. unfold initDags. project.
  destruct (ReadDir env _) as [fis|err]; project; [|apply Hinv].
  rewrite initDags_range_lookup.
  destruct (bool_decide _ && accepted env _ k) eqn:Hacc; [|apply Hinv].
  intros _. apply andb_prop in Hacc as [_ Hacc].
  unfold accepted in Hacc. by apply andb_prop in Hacc as [? _].
Qed.

(** X15: the registry only ever holds keys with a recognized extension: the
    scan adds none without one, and the watch loop keeps the property over
    any messages whose recognized event names have a recognized base
    filename. *)
Theorem registry_keys_stay_recognized env er :
  (forall k, is_Some (entryReader.dags er !! k) -> recognized env k = true) ->
  (forall k, is_Some (entryReader.dags (receiver (initDags env er)) !! k) ->
     recognized env k = true)
  /\ (forall msgs,
        Forall (fun msg => match msg with
                           | RecvEvent event =>
                             recognized env (fsnotify.Event.Name event) = true ->
                             recognized env
                               (Base env (fsnotify.Event.Name event)) = true
                           | _ => True
                           end) msgs ->
        forall k,
          is_Some (entryReader.dags (receiver (watchDags_loop env msgs er)) !! k) ->
          recognized env k = true).
Proof.
  intros Hinv. split.
  - by apply initDags_keys.
  - intros msgs Hmsgs. revert er Hinv.
    induction Hmsgs as [|msg msgs Hmsg _ IH]; intros er Hinv; [apply Hinv|].
    destruct msg as [event| |err|]; cbn [watchDags_loop]; try apply Hinv.
    + destruct (MatchExtension env _ _) eqn:Hm; cbn [negb]; [|by apply IH].
      intros k. rewrite receiver_bind. apply IH. clear k. intros k.
      destruct (decide (k = Base env (fsnotify.Event.Name event))) as [->|Hk].
      * intros _. by apply Hmsg.
      * rewrite applyEvent_other_keys by done. apply Hinv.
    + intros k. rewrite receiver_bind. by apply IH.
Qed.

(** ** From the construction to the first Read *)

Lemma newEntryReader_receiver env cfg :
  (newEntryReader env cfg).1 = receiver (initDags env (emptyRegistry cfg)).
Proof.
  unfold newEntryReader. fold (emptyRegistry cfg). cbn [fst].
  project.
  match goal with
  | |- context [match ?v with Some _ => _ | None => _ end] => by destruct v
  end.
Qed.

Lemma elem_of_loadedHeads env dir fis name d :
  (name, d) ∈ loadedHeads env dir fis <->
  name ∈ fis /\ recognized env name = true
  /\ LoadHeadOnly env (Join env dir name) = Ok d.
Proof.
  unfold loadedHeads. rewrite list_elem_of_omap. split.
  - intros (fi & Hin & Hfi).
    destruct (recognized env fi) eqn:Hr; [|done].
    destruct (LoadHeadOnly env (Join env dir fi)) eqn:Hl; [|done].
    by simplify_eq.
  - intros (Hin & Hr & Hl). exists name. by rewrite Hr, Hl.
Qed.

Lemma NoDup_loadedHeads env dir fis :
  NoDup fis -> NoDup (loadedHeads env dir fis).*1.
Proof.
  induction 1 as [|fi fis Hnotin _ IH]; [constructor|].
  unfold loadedHeads. cbn [omap list_omap].
  destruct (recognized env fi); [|exact IH].
  destruct (LoadHeadOnly env (Join env dir fi)) as [d|]; [|exact IH].
  cbn [fmap list_fmap fst]. constructor; [|exact IH].
  intros Hin. apply list_elem_of_fmap in Hin as ([name d'] & -> & Hin).
  apply elem_of_loadedHeads in Hin as (Hin & _). done.
Qed.

Lemma initDags_registry_is_loadedHeads env cfg fis :
  ReadDir env (admin.DAGs cfg) = Ok fis ->
  NoDup fis ->
  entryReader.dags (receiver (initDags env (emptyRegistry cfg)))
  = list_to_map (loadedHeads env (admin.DAGs cfg) fis).
Proof.
  intros Hdir Hnodup.
  destruct (initDags_run env (emptyRegistry cfg) fis Hdir) as [_ ->].
  pose proof (NoDup_loadedHeads env (admin.DAGs cfg) fis Hnodup) as HL.
  apply map_eq. intros name. rewrite initDags_range_lookup.
  cbn [emptyRegistry entryReader.Admin entryReader.dags].
  destruct (bool_decide_reflect (name ∈ fis)) as [Hin|Hin]; cbn [andb].
  - unfold accepted. fold (recognized env name).
    destruct (recognized env name) eqn:Hr; cbn [andb].
    + destruct (LoadHeadOnly env _) as [d|err] eqn:Hl; cbn [is_Ok].
      * symmetry. apply elem_of_list_to_map; [done|].
        by apply elem_of_loadedHeads.
      * symmetry. apply not_elem_of_list_to_map. intros Hname.
        apply list_elem_of_fmap in Hname as ([n d] & Heq & Hname).
        cbn in Heq. subst n.
        apply elem_of_loadedHeads in Hname as (_ & _ & Hl'). congruence.
    + rewrite lookup_empty. symmetry. apply not_elem_of_list_to_map.
      intros Hname.
      apply list_elem_of_fmap in Hname as ([n d] & Heq & Hname).
      cbn in Heq. subst n.
      apply elem_of_loadedHeads in Hname as (_ & Hr' & _). congruence.
  - rewrite lookup_empty. symmetry. apply not_elem_of_list_to_map.
    intros Hname.
    apply list_elem_of_fmap in Hname as ([n d] & Heq & Hname).
    cbn in Heq. subst n.
    by apply elem_of_loadedHeads in Hname as (? & _ & _).
Qed.

(** X16: the first [Read] after the construction, over a directory that
    lists each file once: the reader has the given configuration, its
    registry holds exactly the heads of the listed files with a recognized
    extension that the loader accepts, and [Read] returns the Actions of
    those that are not suspended, whatever the order of the listing and of
    the range. *)
Theorem Read_after_construction env cfg fis now order :
  ReadDir env (admin.DAGs cfg) = Ok fis ->
  NoDup fis ->
  let er := (newEntryReader env cfg).1 in
  rangeOrder er order ->
  entryReader.Admin er = cfg
  /\ map_to_list (entryReader.dags er)
     ≡ₚ loadedHeads env (admin.DAGs cfg) fis
  /\ (value (Read env now order er)).1
     ≡ₚ produce env cfg now (loadedHeads env (admin.DAGs cfg) fis).
Proof.
  intros Hdir Hnodup. cbv zeta. rewrite newEntryReader_receiver.
  intros Horder.
  assert (entryReader.Admin (receiver (initDags env (emptyRegistry cfg))) = cfg)
    as Hadmin.
  { destruct (initDags_run env (emptyRegistry cfg) fis Hdir) as [_ ->].
    by rewrite initDags_range_Admin. }
  assert (map_to_list
            (entryReader.dags (receiver (initDags env (emptyRegistry cfg))))
          ≡ₚ loadedHeads env (admin.DAGs cfg) fis) as Hlist.
  { rewrite (initDags_registry_is_loadedHeads env cfg fis Hdir Hnodup).
    apply map_to_list_to_map. by apply NoDup_loadedHeads. }
  split; [done|]. split; [done|].
  rewrite Read_run. cbn [value fst]. rewrite Hadmin.
  apply produce_Permutation. by rewrite Horder.
Qed.

(** X17: whatever the directory, the construction ends by starting the
    watch loop, as its last effect and with the lock released; the reader it
    returns has the given configuration, and only keys with a recognized
    extension. *)
Theorem construction_always_starts_the_watch_loop env cfg :
  let r := newEntryReader env cfg in
  entryReader.Admin r.1 = cfg
  /\ last r.2 = Some (EGo "watchDags")
  /\ lockHeld false r.2 = false
  /\ (forall k, is_Some (entryReader.dags r.1 !! k) -> recognized env k = true).
Proof.
  cbv zeta.
  split; [|split; [|split]].
  - rewrite newEntryReader_receiver. unfold initDags. project.
    cbn [emptyRegistry entryReader.Admin].
    destruct (ReadDir env _); project; [|done].
    by rewrite initDags_range_Admin.
  - unfold newEntryReader. cbn [snd]. rewrite !trace_bind.
    cbn [emit trace snd]. rewrite app_assoc. apply last_snoc.
  - unfold newEntryReader. fold (emptyRegistry cfg). cbn [snd].
    rewrite !trace_bind. cbn [emit trace snd]. rewrite !lockHeld_app.
    rewrite initDags_lock.
    match goal with
    | |- context [match ?v with Some _ => _ | None => _ end] => by destruct v
    end.
  - rewrite newEntryReader_receiver. apply initDags_keys.
    intros k. cbn [emptyRegistry entryReader.dags]. rewrite lookup_empty.
    by intros [? ?].
Qed.

(** * Instances of the further properties *)

Lemma initDags_keeps_other_entries_witness :
  ReadDir Example.env (admin.DAGs (entryReader.Admin Example.staleReader))
  = Ok ["a.yaml"; "b.yaml"; "paused.yaml"]
  /\ entryReader.dags (receiver (initDags Example.env Example.staleReader))
       !! "old.yaml"
     = Some Example.dagA.
Proof.
  assert (ReadDir Example.env (admin.DAGs (entryReader.Admin Example.staleReader))
          = Ok ["a.yaml"; "b.yaml"; "paused.yaml"]) as Hdir by reflexivity.
  split; [exact Hdir|].
  destruct (initDags_keeps_other_entries Example.env Example.staleReader _ Hdir)
    as (_ & _ & Hkeep).
  rewrite (Hkeep "old.yaml").
  - reflexivity.
  - left. apply (bool_decide_unpack _). vm_compute. exact I.
Defined.

Lemma initDags_range_order_irrelevant_witness :
  ["a.yaml"; "paused.yaml"] ≡ₚ ["paused.yaml"; "a.yaml"]
  /\ entryReader.dags
       (receiver (initDags_range Example.env ["a.yaml"; "paused.yaml"] []
                    Example.emptyReader))
     = entryReader.dags
         (receiver (initDags_range Example.env ["paused.yaml"; "a.yaml"] []
                      Example.emptyReader)).
Proof.
  assert (["a.yaml"; "paused.yaml"] ≡ₚ ["paused.yaml"; "a.yaml"]) as Hperm
    by apply perm_swap.
  split; [exact Hperm|].
  exact (initDags_range_order_irrelevant Example.env _ _ [] []
           Example.emptyReader Hperm).
Defined.

Lemma initDags_loads_each_recognized_file_once_witness :
  ReadDir Example.env (admin.DAGs (entryReader.Admin Example.emptyReader))
  = Ok ["a.yaml"; "b.yaml"; "paused.yaml"]
  /\ filter (fun e => isLoad e = true)
       (trace (initDags Example.env Example.emptyReader))
     = [ELoadHeadOnly "/dags/a.yaml"; ELoadHeadOnly "/dags/b.yaml";
        ELoadHeadOnly "/dags/paused.yaml"]
  /\ length (filter (fun e => isLog e = true)
               (trace (initDags Example.env Example.emptyReader))) = 2%nat.
Proof.
  assert (ReadDir Example.env (admin.DAGs (entryReader.Admin Example.emptyReader))
          = Ok ["a.yaml"; "b.yaml"; "paused.yaml"]) as Hdir by reflexivity.
  split; [exact Hdir|].
  destruct (initDags_loads_each_recognized_file_once Example.env
              Example.emptyReader _ Hdir) as (Hloads & Hlogs & _).
  split; [exact Hloads|exact Hlogs].
Defined.

Lemma Read_entries_are_complete_witness :
  rangeOrder Example.reader (map_to_list (entryReader.dags Example.reader))
  /\ action Example.cfg 100%Z Example.dagA EntryTypeStart Example.everyMinute
     ∈ (value (Read Example.env 100%Z
                 (map_to_list (entryReader.dags Example.reader))
                 Example.reader)).1
  /\ exists k d expr,
       entryReader.dags Example.reader !! k = Some d
       /\ IsSuspended Example.env d = false
       /\ Some {| job.DAG := Example.dagA; job.Config := Example.cfg;
                  job.Next := 120%Z |}
          = Some {| job.DAG := d;
                    job.Config := entryReader.Admin Example.reader;
                    job.Next := 120%Z |}
       /\ 120%Z = cron.Next (dag.Parsed expr) 100%Z.
Proof.
  assert (rangeOrder Example.reader
            (map_to_list (entryReader.dags Example.reader))) as Horder
    by (unfold rangeOrder; reflexivity).
  assert (action Example.cfg 100%Z Example.dagA EntryTypeStart
            Example.everyMinute
          ∈ (value (Read Example.env 100%Z
                      (map_to_list (entryReader.dags Example.reader))
                      Example.reader)).1) as Hin.
  { vm_compute. apply list_elem_of_here. }
  split; [exact Horder|]. split; [exact Hin|].
  destruct (Read_entries_are_complete Example.env 100%Z _ Example.reader _
              Horder Hin) as (k & d & expr & Hk & Hs & Hjob & Hnext & _).
  exists k, d, expr. split; [exact Hk|]. split; [exact Hs|].
  split; [exact Hjob|exact Hnext].
Defined.

Lemma Read_entries_invoke_one_job_method_witness :
  action Example.cfg 100%Z Example.dagA EntryTypeStop Example.hourly
  ∈ (value (Read Example.env 100%Z
              [("a.yaml", Example.dagA); ("paused.yaml", Example.dagPaused)]
              Example.reader)).1
  /\ exists j,
       Entry.Job (action Example.cfg 100%Z Example.dagA EntryTypeStop
                    Example.hourly) = Some j
       /\ receiver
            (Invoke Example.env
               (action Example.cfg 100%Z Example.dagA EntryTypeStop
                  Example.hourly))
          = action Example.cfg 100%Z Example.dagA EntryTypeStop Example.hourly.
Proof.
  assert (action Example.cfg 100%Z Example.dagA EntryTypeStop Example.hourly
          ∈ (value (Read Example.env 100%Z
                      [("a.yaml", Example.dagA);
                       ("paused.yaml", Example.dagPaused)]
                      Example.reader)).1) as Hin.
  { vm_compute. apply list_elem_of_further, list_elem_of_here. }
  split; [exact Hin|].
  destruct (Read_entries_invoke_one_job_method Example.env 100%Z _
              Example.reader _ Hin) as (j & Hj & Hsame & _).
  exists j. split; [exact Hj|exact Hsame].
Defined.

Lemma Read_consults_suspension_once_per_entry_witness :
  rangeOrder Example.reader (map_to_list (entryReader.dags Example.reader))
  /\ length
       (filter (fun e => isSuspendCheck e = true)
          (trace (Read Example.env 100%Z
                    (map_to_list (entryReader.dags Example.reader))
                    Example.reader)))
     = size (entryReader.dags Example.reader).
Proof.
  assert (rangeOrder Example.reader
            (map_to_list (entryReader.dags Example.reader))) as Horder
    by (unfold rangeOrder; reflexivity).
  split; [exact Horder|].
  destruct (Read_consults_suspension_once_per_entry Example.env 100%Z _
              Example.reader Horder) as (_ & Hcount & _).
  exact Hcount.
Defined.

Lemma Read_counts_schedules_of_active_definitions_witness :
  rangeOrder Example.reader (map_to_list (entryReader.dags Example.reader))
  /\ length
       (value (Read Example.env 100%Z
                 (map_to_list (entryReader.dags Example.reader))
                 Example.reader)).1
     = 2%nat.
Proof.
  assert (rangeOrder Example.reader
            (map_to_list (entryReader.dags Example.reader))) as Horder
    by (unfold rangeOrder; reflexivity).
  split; [exact Horder|].
  destruct (Read_counts_schedules_of_active_definitions Example.env 100%Z _
              Example.reader Horder) as (Hlen & _).
  rewrite Hlen. vm_compute. reflexivity.
Defined.

Lemma events_of_different_files_commute_witness :
  Base Example.env (fsnotify.Event.Name (Example.created "/dags/a.yaml"))
  <> Base Example.env (fsnotify.Event.Name (Example.removed "/dags/paused.yaml"))
  /\ receiver
       (applyEvent Example.env (Example.removed "/dags/paused.yaml")
          (receiver (applyEvent Example.env (Example.created "/dags/a.yaml")
                       Example.reader)))
     = receiver
         (applyEvent Example.env (Example.created "/dags/a.yaml")
            (receiver (applyEvent Example.env
                         (Example.removed "/dags/paused.yaml") Example.reader))).
Proof.
  assert (Base Example.env
            (fsnotify.Event.Name (Example.created "/dags/a.yaml"))
          <> Base Example.env
               (fsnotify.Event.Name (Example.removed "/dags/paused.yaml")))
    as Hne.
  { apply (bool_decide_unpack _). vm_compute. exact I. }
  split; [exact Hne|].
  exact (events_of_different_files_commute Example.env _ _ Example.reader Hne).
Defined.

Lemma later_event_of_a_file_decides_witness :
  Base Example.env (fsnotify.Event.Name (Example.created "/dags/a.yaml"))
  = Base Example.env (fsnotify.Event.Name (Example.removed "/dags/a.yaml"))
  /\ receiver
       (applyEvent Example.env (Example.removed "/dags/a.yaml")
          (receiver (applyEvent Example.env (Example.created "/dags/a.yaml")
                       Example.emptyReader)))
     = receiver (applyEvent Example.env (Example.removed "/dags/a.yaml")
                   Example.emptyReader).
Proof.
  split; [reflexivity|].
  destruct (later_event_of_a_file_decides Example.env
              (Example.created "/dags/a.yaml") (Example.removed "/dags/a.yaml")
              Example.emptyReader eq_refl) as (Hlast & _).
  exact (Hlast (or_introl eq_refl)).
Defined.

Lemma registry_keys_stay_recognized_witness :
  (forall k, is_Some (entryReader.dags Example.emptyReader !! k) ->
     recognized Example.env k = true)
  /\ (forall k,
        is_Some
          (entryReader.dags
             (receiver
                (watchDags_loop Example.env
                   [RecvEvent (Example.created "/dags/a.yaml");
                    RecvError "overflow";
                    RecvEvent (Example.removed "/dags/paused.yaml")]
                   Example.emptyReader)) !! k) ->
        recognized Example.env k = true).
Proof.
  assert (forall k, is_Some (entryReader.dags Example.emptyReader !! k) ->
            recognized Example.env k = true) as Hinv.
  { intros k [d Hd]. exfalso. revert Hd.
    change (entryReader.dags Example.emptyReader) with (∅ : gmap string dag.DAG.t).
    rewrite lookup_empty. discriminate. }
  split; [exact Hinv|].
  destruct (registry_keys_stay_recognized Example.env Example.emptyReader Hinv)
    as (_ & Hloop).
  apply Hloop.
  repeat constructor.
Defined.

Lemma Read_after_construction_witness :
  ReadDir Example.env (admin.DAGs Example.cfg)
  = Ok ["a.yaml"; "b.yaml"; "paused.yaml"]
  /\ map_to_list (entryReader.dags (newEntryReader Example.env Example.cfg).1)
     ≡ₚ [("a.yaml", Example.dagA); ("paused.yaml", Example.dagPaused)]
  /\ (value (Read Example.env 100%Z
               (map_to_list
                  (entryReader.dags (newEntryReader Example.env Example.cfg).1))
               (newEntryReader Example.env Example.cfg).1)).1
     ≡ₚ [action Example.cfg 100%Z Example.dagA EntryTypeStart Example.everyMinute;
         action Example.cfg 100%Z Example.dagA EntryTypeStop Example.hourly].
Proof.
  assert (ReadDir Example.env (admin.DAGs Example.cfg)
          = Ok ["a.yaml"; "b.yaml"; "paused.yaml"]) as Hdir by reflexivity.
  assert (NoDup ["a.yaml"; "b.yaml"; "paused.yaml"]) as Hnodup.
  { apply (bool_decide_unpack _). vm_compute. exact I. }
  assert (rangeOrder (newEntryReader Example.env Example.cfg).1
            (map_to_list
               (entryReader.dags (newEntryReader Example.env Example.cfg).1)))
    as Horder by (unfold rangeOrder; reflexivity).
  destruct (Read_after_construction Example.env Example.cfg _ 100%Z _
              Hdir Hnodup Horder) as (_ & Hreg & Hread).
  split; [exact Hdir|]. split; [exact Hreg|exact Hread].
Defined.
